(** * Thin entrypoints of the AgentCore onboarding samples

    A shallow embedding of

    - [02_runtime/deployment/invoke.py]        (batch invoker),
    - [02_runtime/deployment/invoke_async.py]  (streaming invoker),
    - [03_identity/test_identity_agent.py]     (identity test client),

    together with the few pieces of the Python runtime they lean on
    ([str.split], [base64.b64decode], [Response.raise_for_status]).

    Part I holds the embedding, Part II the properties. *)

From Stdlib Require Import NArith ZArith Ascii String Lia.
From stdpp Require Import gmap strings list pretty.

Set Warnings "-register-all".
Local Open Scope Z_scope.

(* ================================================================== *)
(** * Part I.  The embedding                                           *)
(* ================================================================== *)

(** ** Python values, exceptions and effects *)

Module Py.

(** A Python [str] is a sequence of code points; [len] counts them. *)
Abbreviation pystr := (list N).

(** ASCII literals of the source, as code points. *)
Definition str (s : string) : pystr :=
  (λ a, N_of_ascii a) <$> String.list_ascii_of_string s.

(** What [json.load] / [json.loads] build, and what a payload or a
    config holds: [None], [bool], [int], [float], [str], [list], [dict].
    A finite [float] is kept as mantissa and binary exponent; nothing
    here computes with it. *)
Inductive json :=
| JNull
| JBool (b : bool)
| JInt (n : Z)
| JFloat (m e : Z)
| JStr (s : pystr)
| JArr (l : list json)
| JObj (d : gmap pystr json).

(** The exception classes that occur.  [NonException] stands for the
    classes deriving from [BaseException] only ([KeyboardInterrupt],
    [SystemExit], ...), which [except Exception] lets through. *)
Inductive exn_class :=
| ValueError
| BinasciiError
| UnicodeDecodeError
| JSONDecodeError
| KeyError
| TypeError
| HTTPError
| RequestException
| OtherException (name : pystr)
| NonException (name : pystr).

Record exn := mk_exn { exn_cls : exn_class; exn_msg : pystr }.

Definition is_Exception (e : exn) : bool :=
  match exn_cls e with
  | NonException _ => false
  | _ => true
  end.

(** A call returns or raises. *)
Inductive outcome (A : Type) :=
| Ok (a : A)
| Raise (e : exn).
Arguments Ok {A} a.
Arguments Raise {A} e.

(** Effectful code threads a state [S] and may raise.  For the entry
    points [S] is the trace of the calls made to the outside (logger,
    HTTP client, agent), oldest first; for the module-level code it is
    the module's globals. *)
Definition M (S A : Type) : Type := S → outcome A * S.

Definition ret {C A} (a : A) : M C A := λ tr, (Ok a, tr).

Definition raise {C A} (e : exn) : M C A := λ tr, (Raise e, tr).

Definition bind {C A B} (m : M C A) (k : A → M C B) : M C B :=
  λ tr, match m tr with
        | (Ok a, tr') => k a tr'
        | (Raise e, tr') => (Raise e, tr')
        end.

(** Record one call to the outside. *)
Definition emit {C} (c : C) : M (list C) unit := λ tr, (Ok tt, tr ++ [c]).

(** The value or exception of a pure library call. *)
Definition lift {C A} (o : outcome A) : M C A := λ tr, (o, tr).

(** The outside answers depending on what has happened so far. *)
Definition ask {C A} (f : C → A) : M C A := λ tr, (Ok (f tr), tr).

(** [try: body  except Exception as e: handler e] *)
Definition try_except_Exception {C A}
  (body : M C A) (handler : exn → M C A) : M C A :=
  λ tr, match body tr with
        | (Ok a, tr') => (Ok a, tr')
        | (Raise e, tr') =>
            if is_Exception e then handler e tr' else (Raise e, tr')
        end.

Declare Scope py_scope.
Delimit Scope py_scope with py.
Notation "'let*' x ':=' m 'in' k" := (bind m (λ x, k))
  (at level 20, x name, m at level 100, k at level 200) : py_scope.
Local Open Scope py_scope.

(** [for x in xs: body x] *)
Fixpoint for_each {C X} (xs : list X) (body : X → M C unit) : M C unit :=
  match xs with
  | [] => ret tt
  | x :: xs' => bind (body x) (λ _, for_each xs' body)
  end.

(** [enumerate(xs, start)] *)
Fixpoint enumerate_from {X} (start : Z) (xs : list X) : list (Z * X) :=
  match xs with
  | [] => []
  | x :: xs' => (start, x) :: enumerate_from (start + 1) xs'
  end.

Definition enumerate {X} (xs : list X) : list (Z * X) := enumerate_from 0 xs.

(** [s.split(sep)] for a one-character separator: never empty. *)
Fixpoint split (sep : N) (s : pystr) : list pystr :=
  match s with
  | [] => [[]]
  | c :: s' =>
      if (c =? sep)%N then [] :: split sep s'
      else match split sep s' with
           | p :: ps => (c :: p) :: ps
           | [] => [[c]]
           end
  end.

(** [c * n] for a one-character string [c]: empty when [n <= 0]. *)
Definition str_mul (c : N) (n : Z) : pystr := replicate (Z.to_nat n) c.

(** [str(n)] of an [int]. *)
Definition str_of_int (n : Z) : pystr := str (pretty n).

(** [d.get(k)]: the value, or [None]. *)
Definition dict_get (d : gmap pystr json) (k : pystr) : json :=
  default JNull (d !! k).

(** [v[k]] for a string key [k]. *)
Definition getitem (v : json) (k : pystr) : outcome json :=
  match v with
  | JObj d =>
      match d !! k with
      | Some x => Ok x
      | None => Raise (mk_exn KeyError k)
      end
  | JArr _ =>
      Raise (mk_exn TypeError
               (str "list indices must be integers or slices, not str"))
  | JStr _ =>
      Raise (mk_exn TypeError (str "string indices must be integers"))
  | JNull | JBool _ | JInt _ | JFloat _ _ =>
      Raise (mk_exn TypeError (str "object is not subscriptable"))
  end.

End Py.

Import Py.
Local Open Scope py_scope.

(** ** [base64.b64decode] as the standard library has it *)

Module Base64.

Definition BASE64_PAD : N := 61.

(** The decoding table of [binascii]: the 6-bit value of an alphabet
    character, [64] for any other byte. *)
Definition table_a2b_base64 (c : N) : N :=
  if (65 <=? c)%N && (c <=? 90)%N then (c - 65)%N
  else if (97 <=? c)%N && (c <=? 122)%N then (c - 97 + 26)%N
  else if (48 <=? c)%N && (c <=? 57)%N then (c - 48 + 52)%N
  else if (c =? 43)%N then 62%N
  else if (c =? 47)%N then 63%N
  else 64%N.

Definition in_alphabet (c : N) : bool := (table_a2b_base64 c <? 64)%N.

Definition invalid_length (produced : nat) : exn :=
  mk_exn BinasciiError
    (str "Invalid base64-encoded string: number of data characters ("
     ++ str_of_int (Z.of_nat produced / 3 * 4 + 1)
     ++ str ") cannot be 1 more than a multiple of 4").

Definition incorrect_padding : exn :=
  mk_exn BinasciiError (str "Incorrect padding").

(** The non-strict loop of [binascii.a2b_base64]: bytes outside the
    alphabet are skipped, a pad sequence that completes a quad ends the
    input, and leftover characters at the end are an error. [out] is the
    output produced so far. *)
Fixpoint a2b_loop (data : list N) (quad_pos leftchar pads : N)
  (out : list N) : outcome (list N) :=
  match data with
  | [] =>
      if (quad_pos =? 0)%N then Ok out
      else if (quad_pos =? 1)%N then Raise (invalid_length (length out))
      else Raise incorrect_padding
  | this_ch :: rest =>
      if (this_ch =? BASE64_PAD)%N then
        if (2 <=? quad_pos)%N && (4 <=? quad_pos + (pads + 1))%N then Ok out
        else a2b_loop rest quad_pos leftchar
               (if (2 <=? quad_pos)%N then pads + 1 else pads)%N out
      else
        let v := table_a2b_base64 this_ch in
        if (64 <=? v)%N then a2b_loop rest quad_pos leftchar pads out
        else if (quad_pos =? 0)%N then a2b_loop rest 1 v 0 out
        else if (quad_pos =? 1)%N then
          a2b_loop rest 2 (N.land v 15) 0
            (out ++ [N.land (N.lor (N.shiftl leftchar 2) (N.shiftr v 4)) 255])
        else if (quad_pos =? 2)%N then
          a2b_loop rest 3 (N.land v 3) 0
            (out ++ [N.land (N.lor (N.shiftl leftchar 4) (N.shiftr v 2)) 255])
        else
          a2b_loop rest 0 0 0
            (out ++ [N.land (N.lor (N.shiftl leftchar 6) v) 255])
  end.

Definition a2b_base64 (data : list N) : outcome (list N) :=
  a2b_loop data 0 0 0 [].

(** [base64.b64decode(s)] for a [str] argument: the string has to be
    ASCII, then [binascii.a2b_base64] decodes it. *)
Definition b64decode (s : pystr) : outcome (list N) :=
  if forallb (λ c, (c <? 128)%N) s then a2b_base64 s
  else Raise (mk_exn ValueError
                (str "string argument should contain only ASCII characters")).

(** The encoding table of [binascii]: the alphabet character of a
    6-bit value. *)
Definition table_b2a_base64 (v : N) : N :=
  if (v <? 26)%N then (v + 65)%N
  else if (v <? 52)%N then (v - 26 + 97)%N
  else if (v <? 62)%N then (v - 52 + 48)%N
  else if (v =? 62)%N then 43%N
  else 47%N.

(** [base64.b64encode(bs).rstrip(b"=")]: the base64 text of a byte
    string with the trailing padding left off, which is how the segments
    of a token arrive. *)
Fixpoint b64encode_nopad (bs : list N) : pystr :=
  match bs with
  | [] => []
  | [b0] =>
      [table_b2a_base64 (N.shiftr b0 2);
       table_b2a_base64 (N.shiftl (N.land b0 3) 4)]
  | [b0; b1] =>
      [table_b2a_base64 (N.shiftr b0 2);
       table_b2a_base64 (N.lor (N.shiftl (N.land b0 3) 4) (N.shiftr b1 4));
       table_b2a_base64 (N.shiftl (N.land b1 15) 2)]
  | b0 :: b1 :: b2 :: rest =>
      table_b2a_base64 (N.shiftr b0 2)
      :: table_b2a_base64 (N.lor (N.shiftl (N.land b0 3) 4) (N.shiftr b1 4))
      :: table_b2a_base64 (N.lor (N.shiftl (N.land b1 15) 2) (N.shiftr b2 6))
      :: table_b2a_base64 (N.land b2 63)
      :: b64encode_nopad rest
  end.

End Base64.

(** ** [requests.Response] *)

Module Requests.

Record Response := mk_response {
  status_code : Z;
  reason : pystr;
  url : pystr;
  text : pystr
}.

(** [Response.raise_for_status()]: an [HTTPError] for a client error
    (4xx) or a server error (5xx), nothing otherwise. *)
Definition raise_for_status (r : Response) : outcome unit :=
  if (400 <=? status_code r) && (status_code r <? 500) then
    Raise (mk_exn HTTPError
             (str_of_int (status_code r) ++ str " Client Error: "
              ++ reason r ++ str " for url: " ++ url r))
  else if (500 <=? status_code r) && (status_code r <? 600) then
    Raise (mk_exn HTTPError
             (str_of_int (status_code r) ++ str " Server Error: "
              ++ reason r ++ str " for url: " ++ url r))
  else Ok tt.

End Requests.

Import Requests.

(** ** [03_identity/test_identity_agent.py] *)

Module IdentityClient.

(** The calls the client makes to the outside that the properties speak
    about, as a test double would record them. *)
Inductive call :=
| b64decode_call (s : pystr)
| logger_info (msg : pystr)
| logger_error (msg : pystr)
| requests_post (url : json) (headers : gmap pystr pystr) (data : pystr).

(** The libraries and services the client relies on without looking
    inside: the UTF-8 codec, the JSON codec, the formatting of a parsed
    value inside an f-string, the clock and the runtime endpoint.  The
    clock and the endpoint may answer differently as the run goes on. *)
Class Collaborators := {
  bytes_decode : list N → outcome pystr;
  json_loads : pystr → outcome json;
  format_value : json → pystr;
  json_dumps : json → pystr;
  utcnow_strftime : list call → pystr;
  post_response :
    list call → json → gmap pystr pystr → pystr → outcome Response
}.

(** *** Module-level configuration *)

Record globals := mk_globals {
  OAUTH_PROVIDER : json;
  OAUTH_SCOPE : json;
  RUNTIME_URL : json
}.

Definition initial_globals : globals :=
  mk_globals (JStr []) (JStr []) (JStr []).

Definition BASE64_BLOCK_SIZE : Z := 4.

Definition set_OAUTH_PROVIDER (v : json) : M globals unit :=
  λ g, (Ok tt, mk_globals v (OAUTH_SCOPE g) (RUNTIME_URL g)).

Definition set_OAUTH_SCOPE (v : json) : M globals unit :=
  λ g, (Ok tt, mk_globals (OAUTH_PROVIDER g) v (RUNTIME_URL g)).

Definition set_RUNTIME_URL (v : json) : M globals unit :=
  λ g, (Ok tt, mk_globals (OAUTH_PROVIDER g) (OAUTH_SCOPE g) v).

(** The body of the [with CONFIG_FILE.open('r')] block, once
    [json.load] has produced [config]. *)
Definition load_config (config : json) : M globals unit :=
  let* provider := lift (getitem config (str "provider")) in
  let* name := lift (getitem provider (str "name")) in
  let* _ := set_OAUTH_PROVIDER name in
  let* cognito := lift (getitem config (str "cognito")) in
  let* scope := lift (getitem cognito (str "scope")) in
  let* _ := set_OAUTH_SCOPE scope in
  let* runtime := lift (getitem config (str "runtime")) in
  let* url := lift (getitem runtime (str "url")) in
  set_RUNTIME_URL url.

(** The module is imported, and the process starts, when the
    module-level code runs through from the initial globals. *)
Definition startup (config : json) : outcome globals :=
  match load_config config initial_globals with
  | (Ok _, g) => Ok g
  | (Raise e, _) => Raise e
  end.

(** The value a config holds under key [k2] of the object it holds
    under key [k1], when it has that shape. *)
Definition nested_key (config : json) (k1 k2 : pystr) : option json :=
  match config with
  | JObj d =>
      match d !! k1 with
      | Some (JObj d') => d' !! k2
      | _ => None
      end
  | _ => None
  end.

(** *** [log_jwt_token_details] *)

Section WithCollaborators.
Context `{!Collaborators}.

Definition b64decode (s : pystr) : M (list call) (list N) :=
  let* _ := emit (b64decode_call s) in lift (Base64.b64decode s).

(** The padding step of the loop body. *)
Definition part_for_decode (part : pystr) : pystr :=
  let num_padding_chars :=
    BASE64_BLOCK_SIZE - (Z.of_nat (length part) mod BASE64_BLOCK_SIZE) in
  if decide (num_padding_chars ≠ BASE64_BLOCK_SIZE)
  then part ++ str_mul 61 num_padding_chars
  else part.

(** [f"\tToken part {i}: {value}"] *)
Definition token_part_message (i : Z) (value : json) : pystr :=
  9%N :: str "Token part " ++ str_of_int i ++ str ": " ++ format_value value.

(** [f"\t❌ Failed to decode token part {i}: {e}"] *)
Definition decode_failure_message (i : Z) (e : exn) : pystr :=
  [9; 10060; 32]%N ++ str "Failed to decode token part " ++ str_of_int i
  ++ str ": " ++ exn_msg e.

(** One turn of the loop: the [try] block and its handler. *)
Definition log_token_part (i : Z) (part : pystr) : M (list call) unit :=
  try_except_Exception
    (let* decoded := b64decode (part_for_decode part) in
     let* text := lift (bytes_decode decoded) in
     let* value := lift (json_loads text) in
     emit (logger_info (token_part_message i value)))
    (λ e, emit (logger_error (decode_failure_message i e))).

Definition log_jwt_token_details (access_token : pystr) : M (list call) unit :=
  let token_parts := split 46 access_token in
  for_each (enumerate (take 2 token_parts))
    (λ ip, log_token_part (fst ip) (snd ip)).

(** *** [_cost_estimator_with_auth] *)

(** [if access_token:] for a token that is [None] or a [str]. *)
Definition truthy (access_token : option pystr) : bool :=
  match access_token with
  | None | Some [] => false
  | Some (_ :: _) => true
  end.

(** [f"{access_token}"] *)
Definition format_token (access_token : option pystr) : pystr :=
  match access_token with
  | None => str "None"
  | Some s => s
  end.

Definition post (url : json) (headers : gmap pystr pystr) (data : pystr)
  : M (list call) Response :=
  λ tr, (post_response tr url headers data,
         tr ++ [requests_post url headers data]).

(** ["✅ Successfully load the access token from AgentCore Identity!"] *)
Definition token_loaded_message : pystr :=
  [9989; 32]%N
  ++ str "Successfully load the access token from AgentCore Identity!".

(** The [if access_token:] block. *)
Definition log_access_token (access_token : option pystr)
  : M (list call) unit :=
  match access_token with
  | Some token =>
      if truthy access_token then
        let* _ := emit (logger_info token_loaded_message) in
        log_jwt_token_details token
      else ret tt
  | None => ret tt
  end.

(** The headers dictionary of the request. *)
Definition request_headers (session_id : pystr) (access_token : option pystr)
  : gmap pystr pystr :=
  <[str "X-Amzn-Trace-Id" := session_id]>
    (<[str "X-Amzn-Bedrock-AgentCore-Runtime-Session-Id" := session_id]>
       (<[str "Content-Type" := str "application/json"]>
          (<[str "Authorization" :=
               str "Bearer " ++ format_token access_token]> ∅))).

(** The function under the [requires_access_token] decorator, which
    supplies [access_token]. *)
Definition _cost_estimator_with_auth (g : globals)
  (architecture_description : pystr) (access_token : option pystr)
  : M (list call) pystr :=
  let* stamp := ask utcnow_strftime in
  let session_id := str "runtime-with-identity-" ++ stamp in
  let* _ := log_access_token access_token in
  let headers := request_headers session_id access_token in
  let* response :=
    post (RUNTIME_URL g) headers
      (json_dumps (JObj {[ str "prompt" := JStr architecture_description ]})) in
  let* _ := lift (raise_for_status response) in
  ret (text response).

(** *** Vocabulary for the properties *)

(** The value the [try] block computes for a segment before logging it. *)
Definition decode_segment (part : pystr) : outcome json :=
  match Base64.b64decode (part_for_decode part) with
  | Raise e => Raise e
  | Ok decoded =>
      match bytes_decode decoded with
      | Raise e => Raise e
      | Ok text => json_loads text
      end
  end.

(** The log line a segment ends up with. *)
Definition segment_log_line (i : Z) (part : pystr) : call :=
  match decode_segment part with
  | Ok value => logger_info (token_part_message i value)
  | Raise e => logger_error (decode_failure_message i e)
  end.

(** What the codecs raise derives from [Exception]. *)
Definition codecs_raise_Exception : Prop :=
  (∀ b e, bytes_decode b = Raise e → is_Exception e = true)
  ∧ (∀ s e, json_loads s = Raise e → is_Exception e = true).

End WithCollaborators.

(** The arguments of the recorded [b64decode] calls, in order. *)
Definition b64decode_args (tr : list call) : list pystr :=
  omap (λ c, match c with b64decode_call s => Some s | _ => None end) tr.

(** The recorded [requests.post] calls, in order. *)
Definition posts (tr : list call)
  : list (json * gmap pystr pystr * pystr) :=
  omap (λ c, match c with
             | requests_post u h d => Some (u, h, d)
             | _ => None
             end) tr.

(** The recorded logger calls, in order. *)
Definition log_lines (tr : list call) : list call :=
  omap (λ c, match c with
             | logger_info _ | logger_error _ => Some c
             | _ => None
             end) tr.

(** *** Test doubles *)

(** A codec double that accepts ASCII only. *)
Definition ascii_decode (b : list N) : outcome pystr :=
  if forallb (λ c, (c <? 128)%N) b then Ok b
  else Raise (mk_exn UnicodeDecodeError (str "invalid start byte")).

(** A parser double that knows the JSON literals only. *)
Definition literal_loads (s : pystr) : outcome json :=
  if decide (s = str "null") then Ok JNull
  else if decide (s = str "true") then Ok (JBool true)
  else if decide (s = str "false") then Ok (JBool false)
  else Raise (mk_exn JSONDecodeError (str "Expecting value")).

Definition literal_format (v : json) : pystr :=
  match v with
  | JNull => str "None"
  | JBool true => str "True"
  | JBool false => str "False"
  | _ => str "..."
  end.

(** A serializer double for the one shape the client sends, with a
    prompt that needs no escaping. *)
Definition prompt_dumps (v : json) : pystr :=
  match v with
  | JObj d =>
      match d !! str "prompt" with
      | Some (JStr s) =>
          str "{" ++ 34%N :: str "prompt" ++ 34%N :: str ": "
          ++ 34%N :: s ++ 34%N :: str "}"
      | _ => str "{}"
      end
  | _ => str "null"
  end.

(** An endpoint double that answers every request with [status]. *)
Definition fixed_endpoint (status : Z) : Collaborators := {|
  bytes_decode := ascii_decode;
  json_loads := literal_loads;
  format_value := literal_format;
  json_dumps := prompt_dumps;
  utcnow_strftime := λ _, str "20250101T000000000000Z";
  post_response := λ _ _ _ _,
    Ok (mk_response status (str "reason") (str "https://runtime.example")
          (str "estimate"))
|}.

End IdentityClient.

(** ** [02_runtime/deployment/invoke.py] *)

Module BatchInvoker.

(** The calls made to the agent, as a test double would record them. *)
Inductive call :=
| agent_init
| estimate_costs_call (user_input : json).

(** The cost-estimation agent class: its constructor and its batch
    method, each of which returns or raises, possibly depending on what
    happened before. *)
Class CostEstimator (agent result : Type) := {
  AWSCostEstimatorAgent : list call → outcome agent;
  estimate_costs : agent → list call → json → outcome result
}.

Section WithAgent.
Context {agent result : Type} `{!CostEstimator agent result}.

Definition new_agent : M (list call) agent :=
  λ tr, (AWSCostEstimatorAgent tr, tr ++ [agent_init]).

Definition call_estimate_costs (a : agent) (user_input : json)
  : M (list call) result :=
  λ tr, (estimate_costs a tr user_input,
         tr ++ [estimate_costs_call user_input]).

Definition invoke (payload : gmap pystr json) : M (list call) result :=
  let user_input := dict_get payload (str "prompt") in
  let* a := new_agent in
  call_estimate_costs a user_input.

End WithAgent.

(** A test double: an agent that answers with its prompt in a list. *)
Definition echo_agent : CostEstimator unit json := {|
  AWSCostEstimatorAgent := λ _, Ok tt;
  estimate_costs := λ _ _ user_input, Ok (JArr [user_input])
|}.

(** A test double: an agent class whose constructor fails. *)
Definition broken_agent : CostEstimator unit json := {|
  AWSCostEstimatorAgent := λ _,
    Raise (mk_exn (OtherException (str "RuntimeError")) (str "no model"));
  estimate_costs := λ _ _ user_input, Ok (JArr [user_input])
|}.

End BatchInvoker.

(** ** [02_runtime/deployment/invoke_async.py] *)

Module StreamingInvoker.

(** What asking an asynchronous iterator for its next item gives: an
    item and the iterator's next state, the end of the iteration, or an
    exception. *)
Inductive step (S E : Type) :=
| Yield (ev : E) (s : S)
| StopAsyncIteration
| Throw (e : exn).
Arguments Yield {S E} ev s.
Arguments StopAsyncIteration {S E}.
Arguments Throw {S E} e.

(** The agent class with its streaming method; [anext] is
    [stream.__anext__()]. *)
Class StreamingEstimator (agent stream event : Type) := {
  AWSCostEstimatorAgent : outcome agent;
  estimate_costs_stream : agent → json → outcome stream;
  anext : stream → step stream event
}.

(** How an [async for] over an iterator ends. *)
Inductive ending :=
| Exhausted
| Failed (e : exn)
| Pending.

(** [async for] driving an iterator for at most [fuel] requests: the
    items received, in order, and how the iteration stands. *)
Fixpoint drain {I E} (next : I → step I E) (fuel : nat) (s : I)
  : list E * ending :=
  match fuel with
  | O => ([], Pending)
  | S fuel' =>
      match next s with
      | Yield ev s' =>
          let r := drain next fuel' s' in (ev :: fst r, snd r)
      | StopAsyncIteration => ([], Exhausted)
      | Throw e => ([], Failed e)
      end
  end.

Section WithAgent.
Context {agent stream event : Type} `{!StreamingEstimator agent stream event}.

(** The async generator [invoke(payload)] is suspended either before
    its first statement or at its [yield]. *)
Inductive generator :=
| Created (payload : gmap pystr json)
| AtYield (upstream : stream).

(** One turn of [async for event in stream: yield (event)]. *)
Definition forward (upstream : stream) : step generator event :=
  match anext upstream with
  | Yield ev upstream' => Yield ev (AtYield upstream')
  | StopAsyncIteration => StopAsyncIteration
  | Throw e => Throw e
  end.

(** Resuming the generator until its next [yield], return or raise. *)
Definition invoke_anext (g : generator) : step generator event :=
  match g with
  | Created payload =>
      let user_input := dict_get payload (str "prompt") in
      match AWSCostEstimatorAgent with
      | Raise e => Throw e
      | Ok a =>
          match estimate_costs_stream a user_input with
          | Raise e => Throw e
          | Ok upstream => forward upstream
          end
      end
  | AtYield upstream => forward upstream
  end.

Definition invoke (payload : gmap pystr json) : generator := Created payload.

End WithAgent.

(** A test double: an agent whose stream is a list of events, here the
    prompt followed by two fixed events. *)
Definition list_agent : StreamingEstimator unit (list json) json := {|
  AWSCostEstimatorAgent := Ok tt;
  estimate_costs_stream := λ _ user_input,
    Ok [user_input; JStr (str "b"); JStr (str "c")];
  anext := λ s, match s with
                | [] => StopAsyncIteration
                | ev :: s' => Yield ev s'
                end
|}.

(** A test double: an agent whose stream delivers the prompt and then
    breaks. *)
Definition flaky_agent : StreamingEstimator unit (list (option json)) json := {|
  AWSCostEstimatorAgent := Ok tt;
  estimate_costs_stream := λ _ user_input, Ok [Some user_input; None];
  anext := λ s, match s with
                | [] => StopAsyncIteration
                | Some ev :: s' => Yield ev s'
                | None :: _ =>
                    Throw (mk_exn (OtherException (str "RuntimeError"))
                             (str "model stream interrupted"))
                end
|}.

(** A test double: an agent class whose constructor fails. *)
Definition unavailable_agent : StreamingEstimator unit (list json) json := {|
  AWSCostEstimatorAgent :=
    Raise (mk_exn (OtherException (str "RuntimeError")) (str "no model"));
  estimate_costs_stream := λ _ _, Ok [];
  anext := λ s, match s with
                | [] => StopAsyncIteration
                | ev :: s' => Yield ev s'
                end
|}.

End StreamingInvoker.

(* ================================================================== *)
(** * Part II.  Properties                                             *)
(* ================================================================== *)

(** ** The Python layer *)

Module PyFacts.

Example split_token :
  split 46 (str "aGVsbG8.d29ybGQ.sig")
  = [str "aGVsbG8"; str "d29ybGQ"; str "sig"].
Proof. reflexivity. Qed.

Example split_empty : split 46 [] = [[]].
Proof. reflexivity. Qed.

Example split_trailing_dot : split 46 (str "a.") = [str "a"; []].
Proof. reflexivity. Qed.

Lemma split_nonempty sep s : split sep s ≠ [].
Proof. destruct s as [|c s]; simpl; [done|]. by repeat case_match. Qed.

(** Splitting at the first separator. *)
Lemma split_app_sep sep p rest :
  Forall (λ c, c ≠ sep) p →
  split sep (p ++ sep :: rest) = p :: split sep rest.
Proof.
  induction 1 as [|c p Hc _ IH]; simpl.
  - by rewrite N.eqb_refl.
  - apply N.eqb_neq in Hc. by rewrite Hc, IH.
Qed.

Lemma split_no_sep sep p :
  Forall (λ c, c ≠ sep) p → split sep p = [p].
Proof.
  induction 1 as [|c p Hc _ IH]; simpl; [done|].
  apply N.eqb_neq in Hc. by rewrite Hc, IH.
Qed.

Lemma no_sep_check sep p :
  forallb (λ c, negb (c =? sep)%N) p = true → Forall (λ c, c ≠ sep) p.
Proof.
  intros H. apply Forall_forall. intros c Hc. apply list_elem_of_In in Hc.
  eapply forallb_forall in H; eauto. apply N.eqb_neq. by apply negb_true_iff.
Qed.

Lemma enumerate_from_snd {X} (xs : list X) start :
  snd <$> enumerate_from start xs = xs.
Proof. revert start. induction xs; simpl; intros; [done|]. by rewrite IHxs. Qed.

End PyFacts.

(** ** Base64 padding and decoding *)

Module Base64Facts.
Import Base64.

Example b64decode_hello :
  b64decode (str "aGVsbG8=") = Ok (str "hello").
Proof. reflexivity. Qed.

Example b64decode_one_char : b64decode (str "a===") = Raise (invalid_length 0).
Proof. reflexivity. Qed.

Example b64decode_unpadded : b64decode (str "aGVsbG8") = Raise incorrect_padding.
Proof. reflexivity. Qed.

Example b64decode_skips_urlsafe : b64decode (str "a-b=") = Raise incorrect_padding.
Proof. reflexivity. Qed.

Example b64decode_non_ascii :
  ∃ e, b64decode [233%N] = Raise e ∧ exn_cls e = ValueError.
Proof. by eexists. Qed.

Lemma in_alphabet_not_pad c : in_alphabet c = true → (c =? BASE64_PAD)%N = false.
Proof.
  unfold in_alphabet, BASE64_PAD. intros H. apply N.eqb_neq. intros ->.
  by vm_compute in H.
Qed.

Lemma in_alphabet_ascii c : in_alphabet c = true → (c <? 128)%N = true.
Proof.
  unfold in_alphabet. intros H. apply N.ltb_lt. apply N.ltb_lt in H.
  destruct (N.lt_ge_cases c 128) as [|Hge]; [done|]. exfalso.
  unfold table_a2b_base64 in H.
  replace (c <=? 90)%N with false in H by (symmetry; apply N.leb_gt; lia).
  replace (c <=? 122)%N with false in H by (symmetry; apply N.leb_gt; lia).
  replace (c <=? 57)%N with false in H by (symmetry; apply N.leb_gt; lia).
  replace (c =? 43)%N with false in H by (symmetry; apply N.eqb_neq; lia).
  replace (c =? 47)%N with false in H by (symmetry; apply N.eqb_neq; lia).
  rewrite !andb_false_r in H. lia.
Qed.

(** Alphabet characters never end the loop: they only advance the
    position inside the quad. *)
Lemma a2b_loop_alphabet rest data :
  Forall (λ c, in_alphabet c = true) data →
  ∀ q lc out, (q < 4)%N →
  ∃ lc' out',
    a2b_loop (data ++ rest) q lc 0 out
    = a2b_loop rest ((q + N.of_nat (length data)) mod 4)%N lc' 0 out'.
Proof.
  induction 1 as [|c data Hc _ IH]; intros q lc out Hq.
  - exists lc, out. simpl. f_equal. rewrite N.add_0_r.
    symmetry. by apply N.mod_small.
  - pose proof (in_alphabet_not_pad _ Hc) as Hpad.
    assert ((64 <=? table_a2b_base64 c)%N = false) as Hv.
    { apply N.leb_gt. apply N.ltb_lt. exact Hc. }
    assert (∀ q', ((q' + N.of_nat (length data)) mod 4
                   = (q + N.of_nat (length (c :: data))) mod 4)%N →
            (q' < 4)%N →
            ∀ lc1 out1, ∃ lc' out',
              a2b_loop (data ++ rest) q' lc1 0 out1
              = a2b_loop rest
                  ((q + N.of_nat (length (c :: data))) mod 4)%N lc' 0 out')
      as Hnext.
    { intros q' <- Hq' lc1 out1. by apply IH. }
    assert (q = 0 ∨ q = 1 ∨ q = 2 ∨ q = 3)%N as Hcase by lia.
    change ((c :: data) ++ rest) with (c :: (data ++ rest)).
    destruct Hcase as [-> | [-> | [-> | ->]]];
      cbn [a2b_loop]; rewrite Hpad; cbv zeta; rewrite Hv; cbn [N.eqb Pos.eqb];
      apply Hnext; cbn [length]; try lia; rewrite Nat2N.inj_succ;
      try (f_equal; lia).
    replace (3 + N.succ (N.of_nat (length data)))%N
      with (0 + N.of_nat (length data) + 1 * 4)%N by lia.
    symmetry. apply N.Div0.mod_add.
Qed.

End Base64Facts.

(** ** The identity test client *)

Module IdentityFacts.
Import PyFacts Base64 Base64Facts IdentityClient.

(** *** The padding step *)

Lemma part_for_decode_eq part :
  part_for_decode part
  = if decide (Z.of_nat (length part) mod 4 = 0) then part
    else part ++ replicate (Z.to_nat (4 - Z.of_nat (length part) mod 4)) 61%N.
Proof.
  unfold part_for_decode, BASE64_BLOCK_SIZE, str_mul. cbv zeta.
  repeat case_decide; try done; lia.
Qed.

Lemma part_for_decode_length part :
  Z.of_nat (length (part_for_decode part)) mod 4 = 0.
Proof.
  rewrite part_for_decode_eq. case_decide as Hr; [done|].
  pose proof (Z.mod_pos_bound (Z.of_nat (length part)) 4 eq_refl) as Hb.
  rewrite length_app, length_replicate, Nat2Z.inj_add, Z2Nat.id by lia.
  pose proof (Z.div_mod (Z.of_nat (length part)) 4 ltac:(done)) as Hd.
  replace (Z.of_nat (length part) + (4 - Z.of_nat (length part) mod 4))
    with ((Z.of_nat (length part) / 4 + 1) * 4) by lia.
  apply Z.mod_mul. done.
Qed.

Lemma quad_pos_of_length (part : pystr) :
  Z.of_N ((0 + N.of_nat (length part)) mod 4)%N = Z.of_nat (length part) mod 4.
Proof. by rewrite N.add_0_l, N2Z.inj_mod, nat_N_Z. Qed.

(** A segment over the base64 alphabet whose length is not one more
    than a multiple of 4 decodes once padded. *)
Lemma padded_decodable part :
  forallb in_alphabet part = true →
  Z.of_nat (length part) mod 4 ≠ 1 →
  ∃ decoded, Base64.b64decode (part_for_decode part) = Ok decoded.
Proof.
  intros Halpha Hr.
  assert (Forall (λ c, in_alphabet c = true) part) as Hall.
  { apply Forall_forall. intros c Hc. apply list_elem_of_In in Hc.
    eapply forallb_forall in Halpha; eauto. }
  assert (forallb (λ c, (c <? 128)%N) part = true) as Hascii.
  { apply forallb_forall. intros c Hc. apply in_alphabet_ascii.
    eapply forallb_forall in Halpha; eauto. }
  pose proof (Z.mod_pos_bound (Z.of_nat (length part)) 4 eq_refl) as Hb.
  pose proof (quad_pos_of_length part) as Hq.
  rewrite part_for_decode_eq. unfold Base64.b64decode, a2b_base64.
  case_decide as H0.
  - rewrite Hascii.
    destruct (a2b_loop_alphabet [] part Hall 0%N 0%N [] eq_refl)
      as (lc' & out' & Heq).
    rewrite app_nil_r in Heq. rewrite Heq.
    replace ((0 + N.of_nat (length part)) mod 4)%N with 0%N by lia.
    by exists out'.
  - set (k := Z.to_nat (4 - Z.of_nat (length part) mod 4)).
    rewrite forallb_app, Hascii.
    destruct (a2b_loop_alphabet (replicate k 61%N) part Hall 0%N 0%N []
                eq_refl) as (lc' & out' & Heq).
    rewrite Heq.
    assert (Z.of_nat (length part) mod 4 = 2
            ∨ Z.of_nat (length part) mod 4 = 3) as [H2 | H3] by lia.
    + replace ((0 + N.of_nat (length part)) mod 4)%N with 2%N by lia.
      subst k. rewrite H2. by exists out'.
    + replace ((0 + N.of_nat (length part)) mod 4)%N with 3%N by lia.
      subst k. rewrite H3. by exists out'.
Qed.

(** C1 (as amended).  For a segment whose length is not a multiple of
    4 the padding step appends exactly [4 - len mod 4] characters ['=']
    and the padded length is a multiple of 4 (a segment whose length is
    a multiple of 4 is left as it is); the padded segment decodes
    without further padding when the segment is over the base64 alphabet
    and its length is not one more than a multiple of 4. *)
Theorem padding_completes_block (part : pystr) :
  let len := Z.of_nat (length part) in
  (len mod 4 ≠ 0 →
     part_for_decode part = part ++ replicate (Z.to_nat (4 - len mod 4)) 61%N
     ∧ Z.of_nat (length (part_for_decode part)) mod 4 = 0
     ∧ (forallb in_alphabet part = true → len mod 4 ≠ 1 →
        ∃ decoded, Base64.b64decode (part_for_decode part) = Ok decoded))
  ∧ (len mod 4 = 0 → part_for_decode part = part).
Proof.
  intros len. split.
  - intros Hr. split; [|split].
    + rewrite part_for_decode_eq. by case_decide.
    + apply part_for_decode_length.
    + apply padded_decodable.
  - intros Hr. rewrite part_for_decode_eq. by case_decide.
Qed.

Lemma padding_completes_block_witness :
  part_for_decode (str "aGVsbG8") = str "aGVsbG8="
  ∧ ∃ decoded, Base64.b64decode (part_for_decode (str "aGVsbG8")) = Ok decoded.
Proof.
  destruct (proj1 (padding_completes_block (str "aGVsbG8")))
    as (Hpad & _ & Hdec); [by vm_compute|].
  split; [exact Hpad | apply Hdec; by vm_compute].
Defined.

(** C1 as stated fails: the one-character segment ["a"] is padded to
    ["a==="], which [b64decode] rejects. *)
Lemma padding_single_char_undecodable :
  Z.of_nat (length (str "a")) mod 4 ≠ 0
  ∧ part_for_decode (str "a") = str "a==="
  ∧ ¬ ∃ decoded, Base64.b64decode (part_for_decode (str "a")) = Ok decoded.
Proof.
  split; [by vm_compute|]. split; [reflexivity|].
  intros [decoded H]. vm_compute in H. discriminate H.
Qed.

(** *** The token diagnostic logger *)

Lemma a2b_loop_raises data :
  ∀ q lc p out e,
    a2b_loop data q lc p out = Raise e → exn_cls e = BinasciiError.
Proof.
  induction data as [|c data IH]; intros q lc p out e; cbn [a2b_loop].
  - repeat case_match; intros [= <-]; done.
  - cbv zeta. repeat case_match; try done; apply IH.
Qed.

Lemma b64decode_raises s e :
  Base64.b64decode s = Raise e → is_Exception e = true.
Proof.
  unfold Base64.b64decode, a2b_base64, is_Exception. case_match.
  - intros Hr. by rewrite (a2b_loop_raises _ _ _ _ _ _ Hr).
  - by intros [= <-].
Qed.

Lemma for_each_run {C X} (body : X → M (list C) unit) (calls : X → list C) :
  (∀ x tr, body x tr = (Ok tt, tr ++ calls x)) →
  ∀ xs tr, for_each xs body tr = (Ok tt, tr ++ concat (calls <$> xs)).
Proof.
  intros Hbody xs. induction xs as [|x xs IH]; intros tr; simpl.
  - unfold ret. by rewrite app_nil_r.
  - unfold bind. rewrite Hbody, IH. by rewrite <- app_assoc.
Qed.

Lemma b64decode_args_app tr1 tr2 :
  b64decode_args (tr1 ++ tr2) = b64decode_args tr1 ++ b64decode_args tr2.
Proof. apply omap_app. Qed.

Lemma posts_app tr1 tr2 : posts (tr1 ++ tr2) = posts tr1 ++ posts tr2.
Proof. apply omap_app. Qed.

Lemma log_lines_app tr1 tr2 :
  log_lines (tr1 ++ tr2) = log_lines tr1 ++ log_lines tr2.
Proof. apply omap_app. Qed.

Lemma fixed_endpoint_codecs status :
  @codecs_raise_Exception (fixed_endpoint status).
Proof.
  split; simpl.
  - intros b e. unfold ascii_decode. case_match; [done|]. by intros [= <-].
  - intros s e. unfold literal_loads. repeat case_decide; try done.
    by intros [= <-].
Qed.

Section Logger.
Context `{!Collaborators}.

(** One turn of the loop never raises and records the decode attempt
    followed by exactly one log line. *)
Lemma log_token_part_run i part tr :
  codecs_raise_Exception →
  log_token_part i part tr
  = (Ok tt, tr ++ [b64decode_call (part_for_decode part);
                   segment_log_line i part]).
Proof.
  intros [Hdec Hjson].
  unfold log_token_part, try_except_Exception, bind, b64decode, emit, lift,
    segment_log_line, decode_segment.
  destruct (Base64.b64decode (part_for_decode part)) as [decoded|e] eqn:Hb;
    simpl.
  - destruct (bytes_decode decoded) as [text|e] eqn:Hd; simpl.
    + destruct (json_loads text) as [value|e] eqn:Hj; simpl.
      * by rewrite <- !app_assoc.
      * rewrite (Hjson _ _ Hj). by rewrite <- !app_assoc.
    + rewrite (Hdec _ _ Hd). by rewrite <- !app_assoc.
  - rewrite (b64decode_raises _ _ Hb). by rewrite <- !app_assoc.
Qed.

Lemma log_jwt_token_details_run access_token tr :
  codecs_raise_Exception →
  log_jwt_token_details access_token tr
  = (Ok tt,
     tr ++ concat ((λ ip, [b64decode_call (part_for_decode ip.2);
                           segment_log_line ip.1 ip.2])
                     <$> enumerate (take 2 (split 46 access_token)))).
Proof.
  intros Hlib. unfold log_jwt_token_details.
  apply (for_each_run (λ ip, log_token_part ip.1 ip.2)).
  intros [i part] tr'. by apply log_token_part_run.
Qed.

Lemma b64decode_args_segments (xs : list (Z * pystr)) :
  b64decode_args (concat ((λ ip, [b64decode_call (part_for_decode ip.2);
                                  segment_log_line ip.1 ip.2]) <$> xs))
  = part_for_decode <$> (snd <$> xs).
Proof.
  induction xs as [|[i part] xs IH]; [done|].
  cbn [fmap list_fmap concat app snd]. unfold b64decode_args in *.
  unfold segment_log_line at 1.
  destruct (decode_segment part); cbn [omap list_omap]; by rewrite IH.
Qed.

Lemma posts_segments (xs : list (Z * pystr)) :
  posts (concat ((λ ip, [b64decode_call (part_for_decode ip.2);
                         segment_log_line ip.1 ip.2]) <$> xs)) = [].
Proof.
  induction xs as [|[i part] xs IH]; [done|].
  cbn [fmap list_fmap concat app snd]. unfold posts in *.
  unfold segment_log_line at 1.
  destruct (decode_segment part); cbn [omap list_omap]; by rewrite IH.
Qed.

(** C2.  The logger passes to [b64decode] the padded first two
    segments of the token and nothing else: whatever follows the second
    ['.'] is never decoded, and for ["aGVsbG8.d29ybGQ.sig"] (or any other
    signature) segment 0 is decoded as ["aGVsbG8="]. *)
Theorem only_header_and_payload_decoded (access_token : pystr)
  (tr : list call) :
  codecs_raise_Exception →
  b64decode_args (log_jwt_token_details access_token tr).2
  = b64decode_args tr ++ (part_for_decode <$> take 2 (split 46 access_token))
  ∧ (∀ header payload signature,
       Forall (λ c, c ≠ 46%N) header →
       Forall (λ c, c ≠ 46%N) payload →
       access_token = header ++ 46%N :: payload ++ 46%N :: signature →
       b64decode_args (log_jwt_token_details access_token tr).2
       = b64decode_args tr
         ++ [part_for_decode header; part_for_decode payload])
  ∧ (∀ signature,
       b64decode_args
         (log_jwt_token_details (str "aGVsbG8.d29ybGQ." ++ signature) tr).2
       = b64decode_args tr ++ [str "aGVsbG8="; str "d29ybGQ="]).
Proof.
  intros Hlib.
  assert (∀ token,
            b64decode_args (log_jwt_token_details token tr).2
            = b64decode_args tr
              ++ (part_for_decode <$> take 2 (split 46 token))) as Hargs.
  { intros token. rewrite log_jwt_token_details_run by done.
    cbn [snd]. rewrite b64decode_args_app. f_equal.
    rewrite (b64decode_args_segments (enumerate (take 2 (split 46 token)))).
    unfold enumerate. by rewrite enumerate_from_snd. }
  assert (∀ header payload signature,
            Forall (λ c, c ≠ 46%N) header →
            Forall (λ c, c ≠ 46%N) payload →
            take 2 (split 46 (header ++ 46%N :: payload ++ 46%N :: signature))
            = [header; payload]) as Hsplit.
  { intros header payload signature Hh Hp.
    rewrite (split_app_sep _ _ _ Hh), (split_app_sep _ _ _ Hp). done. }
  split; [apply Hargs|]. split.
  - intros header payload signature Hh Hp ->.
    by rewrite Hargs, Hsplit.
  - intros signature. rewrite Hargs.
    change (str "aGVsbG8.d29ybGQ." ++ signature)
      with (str "aGVsbG8" ++ 46%N :: str "d29ybGQ" ++ 46%N :: signature).
    rewrite Hsplit; [done| |]; by apply no_sep_check.
Qed.

(** C5.  A segment that fails to decode is handled inside its own turn
    of the loop: the turn ends normally with the decode attempt and one
    error line recorded, and the logger as a whole ends normally having
    recorded, for each of the first two segments in order, exactly what
    that segment's turn records on its own, whatever became of the
    other. *)
Theorem decode_failure_is_local (access_token : pystr) (tr : list call) :
  codecs_raise_Exception →
  log_jwt_token_details access_token tr
  = (Ok tt,
     tr ++ concat ((λ ip, (log_token_part ip.1 ip.2 []).2)
                     <$> enumerate (take 2 (split 46 access_token))))
  ∧ ∀ i part,
      log_token_part i part []
      = (Ok tt, [b64decode_call (part_for_decode part);
                 segment_log_line i part])
      ∧ (∀ e, decode_segment part = Raise e →
              segment_log_line i part
              = logger_error (decode_failure_message i e))
      ∧ (∀ value, decode_segment part = Ok value →
              segment_log_line i part
              = logger_info (token_part_message i value)).
Proof.
  intros Hlib. split.
  - rewrite log_jwt_token_details_run by done. do 3 f_equal.
    apply list_fmap_ext. intros _ [i part] _.
    by rewrite log_token_part_run.
  - intros i part. split; [by rewrite log_token_part_run|].
    unfold segment_log_line. split; by intros ? ->.
Qed.

(** C9.  On every string the logger ends normally: [split] yields at
    least one segment, the slice yields one or two, and no turn of the
    loop lets an exception out. *)
Theorem log_jwt_token_details_never_raises (access_token : pystr)
  (tr : list call) :
  codecs_raise_Exception →
  (log_jwt_token_details access_token tr).1 = Ok tt
  ∧ (1 ≤ length (take 2 (split 46 access_token)) ≤ 2)%nat
  ∧ (Forall (λ c, c ≠ 46%N) access_token →
     take 2 (split 46 access_token) = [access_token])
  ∧ ∀ i part tr', (log_token_part i part tr').1 = Ok tt.
Proof.
  intros Hlib. split; [by rewrite log_jwt_token_details_run|].
  split; [|split].
  - pose proof (split_nonempty 46 access_token).
    destruct (split 46 access_token) as [|p0 [|p1 ps]]; [done|..];
      simpl; lia.
  - intros Hdots. by rewrite split_no_sep.
  - intros i part tr'. by rewrite log_token_part_run.
Qed.

End Logger.

Lemma only_header_and_payload_decoded_witness :
  b64decode_args
    (@log_jwt_token_details (fixed_endpoint 200)
       (str "aGVsbG8.d29ybGQ.sig") []).2
  = [str "aGVsbG8="; str "d29ybGQ="].
Proof.
  exact (proj1 (only_header_and_payload_decoded (str "aGVsbG8.d29ybGQ.sig")
                  [] (fixed_endpoint_codecs 200))).
Defined.

Lemma decode_failure_is_local_witness :
  @log_jwt_token_details (fixed_endpoint 200) (str "aGVsbG8.bnVsbA.sig") []
  = (Ok tt,
     [b64decode_call (str "aGVsbG8=");
      logger_error
        ([9; 10060; 32]%N
         ++ str "Failed to decode token part 0: Expecting value");
      b64decode_call (str "bnVsbA==");
      logger_info (9%N :: str "Token part 1: None")]).
Proof.
  exact (proj1 (decode_failure_is_local (str "aGVsbG8.bnVsbA.sig") []
                  (fixed_endpoint_codecs 200))).
Defined.

Lemma log_jwt_token_details_never_raises_witness :
  (@log_jwt_token_details (fixed_endpoint 200) (str "not a token") []).1
  = Ok tt.
Proof.
  exact (proj1 (log_jwt_token_details_never_raises (str "not a token") []
                  (fixed_endpoint_codecs 200))).
Defined.

(** *** The authenticated estimator call *)

Section Estimator.
Context `{!Collaborators}.

Lemma log_access_token_falsy access_token tr :
  truthy access_token = false →
  log_access_token access_token tr = (Ok tt, tr).
Proof. by destruct access_token as [[|c s]|]. Qed.

Lemma log_access_token_run access_token tr :
  codecs_raise_Exception →
  ∃ logged,
    posts logged = []
    ∧ log_access_token access_token tr = (Ok tt, tr ++ logged).
Proof.
  intros Hlib. destruct (truthy access_token) eqn:Ht.
  - destruct access_token as [token|]; [|done].
    unfold log_access_token. rewrite Ht. unfold bind, emit.
    rewrite log_jwt_token_details_run by done.
    eexists (logger_info token_loaded_message :: _).
    split; [|by rewrite <- app_assoc].
    change (posts (?c :: ?l)) with (posts l). apply posts_segments.
  - exists []. rewrite app_nil_r. split; [done|].
    by apply log_access_token_falsy.
Qed.

(** Once the logging block has run, the call reads as one request
    followed by the status check. *)
Lemma cost_estimator_after_logging g desc access_token tr logged :
  log_access_token access_token tr = (Ok tt, tr ++ logged) →
  let session_id := str "runtime-with-identity-" ++ utcnow_strftime tr in
  let headers := request_headers session_id access_token in
  let data := json_dumps (JObj {[ str "prompt" := JStr desc ]}) in
  _cost_estimator_with_auth g desc access_token tr
  = (match post_response (tr ++ logged) (RUNTIME_URL g) headers data with
     | Raise e => Raise e
     | Ok response =>
         match raise_for_status response with
         | Raise e => Raise e
         | Ok _ => Ok (text response)
         end
     end,
     tr ++ logged ++ [requests_post (RUNTIME_URL g) headers data]).
Proof.
  intros Hlog. cbv zeta.
  unfold _cost_estimator_with_auth, bind, ask, post, lift, ret.
  rewrite Hlog. rewrite <- app_assoc.
  destruct (post_response _ _ _ _) as [response|e]; [|done].
  by destruct (raise_for_status response).
Qed.

Example raise_for_status_404 :
  ∃ e, raise_for_status (mk_response 404 (str "Not Found") (str "u") [])
       = Raise e
       ∧ exn_msg e = str "404 Client Error: Not Found for url: u".
Proof. by eexists. Qed.

Example raise_for_status_200 :
  raise_for_status (mk_response 200 (str "OK") (str "u") []) = Ok tt.
Proof. reflexivity. Qed.

Lemma raise_for_status_error r :
  400 ≤ status_code r < 600 →
  ∃ e, raise_for_status r = Raise e ∧ exn_cls e = HTTPError.
Proof.
  intros Hs. unfold raise_for_status.
  destruct ((400 <=? status_code r) && (status_code r <? 500)) eqn:H4;
    [by eexists|].
  destruct ((500 <=? status_code r) && (status_code r <? 600)) eqn:H5;
    [by eexists|].
  apply andb_false_iff in H4, H5. lia.
Qed.

Lemma raise_for_status_pass r :
  ¬ (400 ≤ status_code r < 600) → raise_for_status r = Ok tt.
Proof.
  intros Hs. unfold raise_for_status.
  destruct ((400 <=? status_code r) && (status_code r <? 500)) eqn:H4;
    [apply andb_true_iff in H4; lia|].
  destruct ((500 <=? status_code r) && (status_code r <? 600)) eqn:H5;
    [apply andb_true_iff in H5; lia|done].
Qed.

Lemma request_headers_lookup session_id access_token :
  request_headers session_id access_token !! str "Authorization"
  = Some (str "Bearer " ++ format_token access_token)
  ∧ request_headers session_id access_token !! str "Content-Type"
    = Some (str "application/json")
  ∧ request_headers session_id access_token
      !! str "X-Amzn-Bedrock-AgentCore-Runtime-Session-Id" = Some session_id
  ∧ request_headers session_id access_token !! str "X-Amzn-Trace-Id"
    = Some session_id
  ∧ size (request_headers session_id access_token) = 4%nat.
Proof.
  unfold request_headers.
  generalize (str "Bearer " ++ format_token access_token). intros bearer.
  repeat split; by vm_compute.
Qed.

(** C6 (as amended).  The call issues its one request and then: a
    transport error is passed on; a 4xx or 5xx status makes the call
    raise an [HTTPError] and return nothing; any other status, 2xx
    included, makes it return the response body as it is.  No second
    request is issued in any case. *)
Theorem http_error_status_raises (g : globals) (desc : pystr)
  (access_token : option pystr) (tr : list call) :
  codecs_raise_Exception →
  ∃ before headers data,
    (_cost_estimator_with_auth g desc access_token tr).2
    = before ++ [requests_post (RUNTIME_URL g) headers data]
    ∧ posts before = posts tr
    ∧ (∀ e, post_response before (RUNTIME_URL g) headers data = Raise e →
            (_cost_estimator_with_auth g desc access_token tr).1 = Raise e)
    ∧ (∀ response,
         post_response before (RUNTIME_URL g) headers data = Ok response →
         (400 ≤ status_code response < 600 →
          ∃ e, (_cost_estimator_with_auth g desc access_token tr).1 = Raise e
               ∧ exn_cls e = HTTPError)
         ∧ (¬ (400 ≤ status_code response < 600) →
            (_cost_estimator_with_auth g desc access_token tr).1
            = Ok (text response))).
Proof.
  intros Hlib.
  destruct (log_access_token_run access_token tr Hlib)
    as (logged & Hposts & Hlog).
  rewrite (cost_estimator_after_logging g desc _ _ _ Hlog). cbn [fst snd].
  set (headers := request_headers _ _). set (data := json_dumps _).
  exists (tr ++ logged), headers, data.
  split; [apply app_assoc|].
  split; [rewrite posts_app, Hposts; apply app_nil_r|].
  split; [intros e ->; reflexivity|].
  intros response ->. split.
  - intros Hs. destruct (raise_for_status_error _ Hs) as (e & -> & He).
    exists e. split; [reflexivity | exact He].
  - intros Hs. rewrite (raise_for_status_pass _ Hs). reflexivity.
Qed.

(** C7.  Every call records exactly one [requests.post]: to the
    configured URL, with the four headers (bearer authorization, JSON
    content type, and the same generated session identifier as session
    id and as trace id), and with the serialized object holding the
    prompt as body. *)
Theorem exactly_one_post (g : globals) (desc : pystr)
  (access_token : option pystr) (tr : list call) :
  codecs_raise_Exception →
  let session_id := str "runtime-with-identity-" ++ utcnow_strftime tr in
  ∃ headers,
    posts (_cost_estimator_with_auth g desc access_token tr).2
    = posts tr
      ++ [(RUNTIME_URL g, headers,
           json_dumps (JObj {[ str "prompt" := JStr desc ]}))]
    ∧ headers !! str "Authorization"
      = Some (str "Bearer " ++ format_token access_token)
    ∧ (∀ token, access_token = Some token →
         headers !! str "Authorization" = Some (str "Bearer " ++ token))
    ∧ headers !! str "Content-Type" = Some (str "application/json")
    ∧ headers !! str "X-Amzn-Bedrock-AgentCore-Runtime-Session-Id"
      = Some session_id
    ∧ headers !! str "X-Amzn-Trace-Id" = Some session_id
    ∧ size headers = 4%nat.
Proof.
  intros Hlib session_id.
  destruct (log_access_token_run access_token tr Hlib)
    as (logged & Hposts & Hlog).
  rewrite (cost_estimator_after_logging g desc _ _ _ Hlog). cbn [snd].
  exists (request_headers session_id access_token).
  destruct (request_headers_lookup session_id access_token)
    as (Hauth & Htype & Hsid & Htrace & Hsize).
  split; [rewrite !posts_app, Hposts; reflexivity|].
  split; [exact Hauth|]. split; [intros token ->; exact Hauth|].
  exact (conj Htype (conj Hsid (conj Htrace Hsize))).
Qed.

(** C10.  With a token that is [None] or empty the call records no
    logging and no decoding, only the request, whose [Authorization]
    header renders the token as Python formats it (["Bearer None"] for
    [None]); how the call ends is decided by the answer to the request
    alone. *)
Theorem absent_token_still_posts (g : globals) (desc : pystr)
  (access_token : option pystr) (tr : list call) :
  access_token = None ∨ access_token = Some [] →
  let session_id := str "runtime-with-identity-" ++ utcnow_strftime tr in
  let headers := request_headers session_id access_token in
  let data := json_dumps (JObj {[ str "prompt" := JStr desc ]}) in
  _cost_estimator_with_auth g desc access_token tr
  = (match post_response tr (RUNTIME_URL g) headers data with
     | Raise e => Raise e
     | Ok response =>
         match raise_for_status response with
         | Raise e => Raise e
         | Ok _ => Ok (text response)
         end
     end,
     tr ++ [requests_post (RUNTIME_URL g) headers data])
  ∧ log_lines (_cost_estimator_with_auth g desc access_token tr).2
    = log_lines tr
  ∧ b64decode_args (_cost_estimator_with_auth g desc access_token tr).2
    = b64decode_args tr
  ∧ headers !! str "Authorization"
    = Some (str "Bearer " ++ format_token access_token)
  ∧ (access_token = None →
     headers !! str "Authorization" = Some (str "Bearer None")).
Proof.
  intros Habsent session_id headers data.
  assert (truthy access_token = false) as Ht
    by (by destruct Habsent as [-> | ->]).
  pose proof (log_access_token_falsy access_token tr Ht) as Hlog.
  rewrite <- (app_nil_r tr) in Hlog at 2.
  rewrite (cost_estimator_after_logging g desc _ _ _ Hlog).
  rewrite app_nil_r. cbn [snd]. split; [reflexivity|].
  split; [rewrite log_lines_app; apply app_nil_r|].
  split; [rewrite b64decode_args_app; apply app_nil_r|].
  destruct (request_headers_lookup session_id access_token) as (Hauth & _).
  split; [exact Hauth|]. intros Hnone. subst access_token. exact Hauth.
Qed.

End Estimator.

Lemma http_error_status_raises_witness :
  ∃ e, (@_cost_estimator_with_auth (fixed_endpoint 404) initial_globals
          (str "two EC2 instances") (Some (str "aGVsbG8.bnVsbA.sig")) []).1
       = Raise e
       ∧ exn_cls e = HTTPError.
Proof.
  destruct (@http_error_status_raises (fixed_endpoint 404) initial_globals
              (str "two EC2 instances") (Some (str "aGVsbG8.bnVsbA.sig")) []
              (fixed_endpoint_codecs 404))
    as (before & headers & data & _ & _ & _ & Hresponse).
  apply (Hresponse (mk_response 404 (str "reason")
                      (str "https://runtime.example") (str "estimate")));
    [reflexivity | simpl; lia].
Defined.

(** C6 as stated fails: status 304 is not a 2xx status, and the call
    returns the body. *)
Lemma not_modified_returns_body :
  ¬ (200 ≤ 304 < 300)
  ∧ (∀ tr u h d, ∃ r, @post_response (fixed_endpoint 304) tr u h d = Ok r
                      ∧ status_code r = 304)
  ∧ (@_cost_estimator_with_auth (fixed_endpoint 304) initial_globals
       (str "two EC2 instances") (Some (str "aGVsbG8.bnVsbA.sig")) []).1
    = Ok (str "estimate").
Proof.
  split; [lia|]. split; [|reflexivity].
  intros tr u h d. by eexists.
Qed.

Lemma exactly_one_post_witness :
  ∃ headers,
    posts (@_cost_estimator_with_auth (fixed_endpoint 200) initial_globals
             (str "two EC2 instances") (Some (str "aGVsbG8.bnVsbA.sig")) []).2
    = [(JStr [], headers,
        str "{" ++ 34%N :: str "prompt" ++ 34%N :: str ": "
        ++ 34%N :: str "two EC2 instances" ++ 34%N :: str "}")]
    ∧ headers !! str "Authorization"
      = Some (str "Bearer aGVsbG8.bnVsbA.sig").
Proof.
  destruct (@exactly_one_post (fixed_endpoint 200) initial_globals
              (str "two EC2 instances") (Some (str "aGVsbG8.bnVsbA.sig")) []
              (fixed_endpoint_codecs 200))
    as (headers & Hposts & Hauth & _).
  exists headers. split; [exact Hposts | exact Hauth].
Defined.

Lemma absent_token_still_posts_witness :
  ∃ headers,
    @_cost_estimator_with_auth (fixed_endpoint 200) initial_globals
      (str "two EC2 instances") None []
    = (Ok (str "estimate"),
       [requests_post (JStr []) headers
          (str "{" ++ 34%N :: str "prompt" ++ 34%N :: str ": "
           ++ 34%N :: str "two EC2 instances" ++ 34%N :: str "}")])
    ∧ headers !! str "Authorization" = Some (str "Bearer None").
Proof.
  destruct (@absent_token_still_posts (fixed_endpoint 200) initial_globals
              (str "two EC2 instances") None [] (or_introl eq_refl))
    as (Hrun & _ & _ & _ & Hauth).
  eexists. split; [exact Hrun | exact (Hauth eq_refl)].
Defined.

(** *** The configuration loader *)

Lemma getitem_nested config k1 k2 :
  match nested_key config k1 k2 with
  | Some v => ∃ mid, getitem config k1 = Ok mid ∧ getitem mid k2 = Ok v
  | None =>
      (∃ e, getitem config k1 = Raise e)
      ∨ (∃ mid e, getitem config k1 = Ok mid ∧ getitem mid k2 = Raise e)
  end.
Proof.
  destruct config as [| | | | | |d]; simpl; try (left; by eexists).
  destruct (d !! k1) as [mid|] eqn:Hmid; [|left; by eexists].
  destruct mid as [| | | | | |d']; simpl;
    try (right; eexists _, _; by split).
  destruct (d' !! k2) as [v|] eqn:Hv.
  - eexists. split; [done|]. simpl. by rewrite Hv.
  - right. eexists _, _. split; [done|]. simpl. by rewrite Hv.
Qed.

Lemma getitem_present config k1 k2 v :
  nested_key config k1 k2 = Some v →
  ∃ mid, getitem config k1 = Ok mid ∧ getitem mid k2 = Ok v.
Proof. intros Hk. pose proof (getitem_nested config k1 k2) as H. by rewrite Hk in H. Qed.

Lemma getitem_missing config k1 k2 :
  nested_key config k1 k2 = None →
  (∃ e, getitem config k1 = Raise e)
  ∨ (∃ mid e, getitem config k1 = Ok mid ∧ getitem mid k2 = Raise e).
Proof. intros Hk. pose proof (getitem_nested config k1 k2) as H. by rewrite Hk in H. Qed.

(** C8.  From a config holding the three nested keys the loader ends
    with the globals set to exactly the three values found there; from a
    config that lacks one of them the module-level code raises, so the
    module is not loaded. *)
Theorem config_keys_required (config : json) :
  (∀ name scope url,
     nested_key config (str "provider") (str "name") = Some name →
     nested_key config (str "cognito") (str "scope") = Some scope →
     nested_key config (str "runtime") (str "url") = Some url →
     load_config config initial_globals = (Ok tt, mk_globals name scope url)
     ∧ startup config = Ok (mk_globals name scope url))
  ∧ (nested_key config (str "provider") (str "name") = None
     ∨ nested_key config (str "cognito") (str "scope") = None
     ∨ nested_key config (str "runtime") (str "url") = None →
     ∃ e, startup config = Raise e).
Proof.
  split.
  - intros name scope url Hn Hs Hu.
    apply getitem_present in Hn as (provider & Hp1 & Hp2).
    apply getitem_present in Hs as (cognito & Hc1 & Hc2).
    apply getitem_present in Hu as (runtime & Hr1 & Hr2).
    assert (load_config config initial_globals
            = (Ok tt, mk_globals name scope url)) as Hload.
    { unfold load_config, bind, lift.
      rewrite Hp1, Hp2. cbn -[str]. rewrite Hc1, Hc2. cbn -[str].
      by rewrite Hr1, Hr2. }
    split; [done|]. unfold startup. by rewrite Hload.
  - intros Hmissing. unfold startup, load_config, bind, lift.
    destruct (getitem config (str "provider")) as [provider|e] eqn:Hp1;
      [|by eexists].
    destruct (getitem provider (str "name")) as [name|e] eqn:Hp2;
      [|by eexists].
    cbn -[str].
    destruct (getitem config (str "cognito")) as [cognito|e] eqn:Hc1;
      [|by eexists].
    destruct (getitem cognito (str "scope")) as [scope|e] eqn:Hc2;
      [|by eexists].
    cbn -[str].
    destruct (getitem config (str "runtime")) as [runtime|e] eqn:Hr1;
      [|by eexists].
    destruct (getitem runtime (str "url")) as [url|e] eqn:Hr2;
      [|by eexists].
    exfalso.
    destruct Hmissing as [Hk | [Hk | Hk]];
      apply getitem_missing in Hk
        as [(e & He) | (mid & e & Hmid & He)]; congruence.
Qed.

Lemma config_keys_required_witness :
  startup
    (JObj (<[str "provider" := JObj {[ str "name" := JStr (str "idp") ]}]>
             (<[str "cognito" := JObj {[ str "scope" := JStr (str "s/rw") ]}]>
                {[ str "runtime"
                   := JObj {[ str "url" := JStr (str "https://rt") ]} ]})))
  = Ok (mk_globals (JStr (str "idp")) (JStr (str "s/rw"))
          (JStr (str "https://rt")))
  ∧ ∃ e, startup
           (JObj {[ str "provider"
                    := JObj {[ str "name" := JStr (str "idp") ]} ]})
         = Raise e.
Proof.
  split.
  - refine (proj2 (proj1 (config_keys_required _) _ _ _ _ _ _));
      by vm_compute.
  - refine (proj2 (config_keys_required _) _). right. left. by vm_compute.
Defined.

End IdentityFacts.

(** ** The batch invoker *)

Module BatchFacts.
Import BatchInvoker.

(** C3.  For a payload holding [X] under ["prompt"], the invoker
    constructs the agent, calls its batch estimation once, with [X]
    itself, and what that call returns or raises is what the invoker
    returns or raises. *)
Theorem invoke_passes_prompt_through {agent result : Type}
  `{!CostEstimator agent result}
  (payload : gmap pystr json) (X : json) (a : agent) (tr : list call) :
  payload !! str "prompt" = Some X →
  AWSCostEstimatorAgent tr = Ok a →
  invoke payload tr
  = (estimate_costs a (tr ++ [agent_init]) X,
     tr ++ [agent_init; estimate_costs_call X]).
Proof.
  intros HX Ha.
  unfold invoke, bind, new_agent, call_estimate_costs, dict_get.
  rewrite HX, Ha. cbn. by rewrite <- app_assoc.
Qed.

Lemma invoke_passes_prompt_through_witness :
  @invoke unit json echo_agent {[ str "prompt" := JStr (str "X") ]} []
  = (Ok (JArr [JStr (str "X")]),
     [agent_init; estimate_costs_call (JStr (str "X"))]).
Proof.
  apply (@invoke_passes_prompt_through unit json echo_agent
           {[ str "prompt" := JStr (str "X") ]} (JStr (str "X")) tt []);
    reflexivity.
Defined.

End BatchFacts.

(** ** The streaming invoker *)

Module StreamingFacts.
Import StreamingInvoker.

Section Forwarding.
Context {agent stream event : Type} `{!StreamingEstimator agent stream event}.

(** Suspended at its [yield], the generator delivers what the upstream
    iterator delivers, request by request. *)
Lemma drain_at_yield fuel :
  ∀ upstream,
    drain invoke_anext fuel (AtYield upstream) = drain anext fuel upstream.
Proof.
  induction fuel as [|fuel IH]; intros upstream; [done|].
  cbn [drain invoke_anext]. unfold forward.
  destruct (anext upstream) as [ev upstream'| |e]; [|done..].
  by rewrite IH.
Qed.

Lemma drain_created fuel payload a upstream :
  AWSCostEstimatorAgent = Ok a →
  estimate_costs_stream a (dict_get payload (str "prompt")) = Ok upstream →
  drain invoke_anext fuel (invoke payload) = drain anext fuel upstream.
Proof.
  intros Ha Hs. destruct fuel as [|fuel]; [done|].
  rewrite <- drain_at_yield. cbn [drain invoke invoke_anext].
  by rewrite Ha, Hs.
Qed.

(** C4.  When the upstream iterator delivers the events [events] and
    then ends, the generator delivers the same events in the same order
    and then ends; at any earlier point it has delivered exactly what
    the upstream iterator has. *)
Theorem invoke_forwards_events_in_order (payload : gmap pystr json)
  (a : agent) (upstream : stream) (fuel : nat) (events : list event) :
  AWSCostEstimatorAgent = Ok a →
  estimate_costs_stream a (dict_get payload (str "prompt")) = Ok upstream →
  drain anext fuel upstream = (events, Exhausted) →
  drain invoke_anext fuel (invoke payload) = (events, Exhausted)
  ∧ ∀ n, drain invoke_anext n (invoke payload) = drain anext n upstream.
Proof.
  intros Ha Hs Hevents. split.
  - by rewrite (drain_created _ _ _ _ Ha Hs).
  - intros n. by apply drain_created with a.
Qed.

End Forwarding.

Lemma invoke_forwards_events_in_order_witness :
  drain (@invoke_anext unit (list json) json list_agent) 4
    (invoke {[ str "prompt" := JStr (str "a") ]})
  = ([JStr (str "a"); JStr (str "b"); JStr (str "c")], Exhausted).
Proof.
  refine (proj1 (@invoke_forwards_events_in_order unit (list json) json
                   list_agent {[ str "prompt" := JStr (str "a") ]} tt
                   [JStr (str "a"); JStr (str "b"); JStr (str "c")] 4
                   [JStr (str "a"); JStr (str "b"); JStr (str "c")]
                   _ _ _));
    reflexivity.
Defined.

End StreamingFacts.

(** ** Padding restores what an unpadded encoding left off *)

Module Base64RoundTrip.
Import PyFacts Base64 Base64Facts IdentityClient IdentityFacts.

(** Checking a property of small numbers by trying them all. *)
Lemma check_below (n : nat) (P : N → bool) :
  forallb P (List.map N.of_nat (seq 0 n)) = true →
  ∀ v, (v < N.of_nat n)%N → P v = true.
Proof.
  intros Hall v Hv. eapply forallb_forall in Hall; [exact Hall|].
  apply in_map_iff. exists (N.to_nat v). split; [lia|].
  apply in_seq. lia.
Qed.

Lemma check_below2 (n : nat) (P : N → N → bool) :
  forallb (λ a, forallb (P a) (List.map N.of_nat (seq 0 n)))
    (List.map N.of_nat (seq 0 n)) = true →
  ∀ a b, (a < N.of_nat n)%N → (b < N.of_nat n)%N → P a b = true.
Proof.
  intros Hall a b Ha Hb.
  apply (check_below n (P a)); [|done].
  by apply (check_below n (λ a, forallb (P a) (List.map N.of_nat (seq 0 n)))).
Qed.

(** The two tables are inverse on 6-bit values, and the encoding table
    yields ASCII characters other than the pad. *)
Lemma table_round_trip v :
  (v < 64)%N →
  table_a2b_base64 (table_b2a_base64 v) = v
  ∧ (table_b2a_base64 v =? BASE64_PAD)%N = false
  ∧ in_alphabet (table_b2a_base64 v) = true.
Proof.
  intros Hv.
  pose proof (check_below 64
                (λ v, (table_a2b_base64 (table_b2a_base64 v) =? v)%N
                      && negb (table_b2a_base64 v =? BASE64_PAD)%N
                      && in_alphabet (table_b2a_base64 v))
                eq_refl v Hv) as Hc.
  cbv beta in Hc. apply andb_prop in Hc as [Hc H3].
  apply andb_prop in Hc as [H1 H2].
  apply N.eqb_eq in H1. apply negb_true_iff in H2. done.
Qed.

(** How the bits of three bytes sit in four 6-bit values. *)
Lemma sextet_first_pair b0 b1 :
  (b0 < 256)%N → (b1 < 256)%N →
  let s1 := N.lor (N.shiftl (N.land b0 3) 4) (N.shiftr b1 4) in
  (N.shiftr b0 2 < 64)%N
  ∧ (s1 < 64)%N
  ∧ N.land (N.lor (N.shiftl (N.shiftr b0 2) 2) (N.shiftr s1 4)) 255 = b0
  ∧ N.land s1 15 = N.shiftr b1 4.
Proof.
  intros H0 H1 s1.
  pose proof (check_below2 256
    (λ b0 b1,
       let s1 := N.lor (N.shiftl (N.land b0 3) 4) (N.shiftr b1 4) in
       (N.shiftr b0 2 <? 64)%N && (s1 <? 64)%N
       && (N.land (N.lor (N.shiftl (N.shiftr b0 2) 2) (N.shiftr s1 4)) 255
           =? b0)%N
       && (N.land s1 15 =? N.shiftr b1 4)%N)
    ltac:(vm_compute; reflexivity) b0 b1 H0 H1) as Hc.
  cbv beta zeta in Hc. fold s1 in Hc.
  apply andb_prop in Hc as [Hc Hd]. apply andb_prop in Hc as [Hc Hc3].
  apply andb_prop in Hc as [Hc1 Hc2].
  apply N.ltb_lt in Hc1, Hc2. apply N.eqb_eq in Hc3, Hd. done.
Qed.

Lemma sextet_second_pair b1 b2 :
  (b1 < 256)%N → (b2 < 256)%N →
  let s2 := N.lor (N.shiftl (N.land b1 15) 2) (N.shiftr b2 6) in
  (s2 < 64)%N
  ∧ (N.land b2 63 < 64)%N
  ∧ N.land (N.lor (N.shiftl (N.shiftr b1 4) 4) (N.shiftr s2 2)) 255 = b1
  ∧ N.land (N.lor (N.shiftl (N.land s2 3) 6) (N.land b2 63)) 255 = b2.
Proof.
  intros H1 H2 s2.
  pose proof (check_below2 256
    (λ b1 b2,
       let s2 := N.lor (N.shiftl (N.land b1 15) 2) (N.shiftr b2 6) in
       (s2 <? 64)%N && (N.land b2 63 <? 64)%N
       && (N.land (N.lor (N.shiftl (N.shiftr b1 4) 4) (N.shiftr s2 2)) 255
           =? b1)%N
       && (N.land (N.lor (N.shiftl (N.land s2 3) 6) (N.land b2 63)) 255
           =? b2)%N)
    ltac:(vm_compute; reflexivity) b1 b2 H1 H2) as Hc.
  cbv beta zeta in Hc. fold s2 in Hc.
  apply andb_prop in Hc as [Hc Hd]. apply andb_prop in Hc as [Hc Hc3].
  apply andb_prop in Hc as [Hc1 Hc2].
  apply N.ltb_lt in Hc1, Hc2. apply N.eqb_eq in Hc3, Hd. done.
Qed.

(** One alphabet character moves the decoder on by one position. *)
Lemma a2b_loop_sextet s rest q lc p out :
  (s < 64)%N →
  a2b_loop (table_b2a_base64 s :: rest) q lc p out
  = if (q =? 0)%N then a2b_loop rest 1 s 0 out
    else if (q =? 1)%N then
      a2b_loop rest 2 (N.land s 15) 0
        (out ++ [N.land (N.lor (N.shiftl lc 2) (N.shiftr s 4)) 255])
    else if (q =? 2)%N then
      a2b_loop rest 3 (N.land s 3) 0
        (out ++ [N.land (N.lor (N.shiftl lc 4) (N.shiftr s 2)) 255])
    else
      a2b_loop rest 0 0 0 (out ++ [N.land (N.lor (N.shiftl lc 6) s) 255]).
Proof.
  intros Hs. destruct (table_round_trip s Hs) as (Hinv & Hpad & _).
  cbn [a2b_loop]. rewrite Hpad. cbv zeta. rewrite Hinv.
  by replace (64 <=? s)%N with false by (symmetry; apply N.leb_gt; lia).
Qed.

(** Four characters encoding three bytes decode to those bytes and
    leave the decoder at the start of a quad. *)
Lemma a2b_loop_group b0 b1 b2 rest lc p out :
  (b0 < 256)%N → (b1 < 256)%N → (b2 < 256)%N →
  a2b_loop (b64encode_nopad [b0; b1; b2] ++ rest) 0 lc p out
  = a2b_loop rest 0 0 0 (out ++ [b0; b1; b2]).
Proof.
  intros H0 H1 H2.
  destruct (sextet_first_pair b0 b1 H0 H1) as (Hs0 & Hs1 & Ho0 & Hlc1).
  destruct (sextet_second_pair b1 b2 H1 H2) as (Hs2 & Hs3 & Ho1 & Ho2).
  cbv zeta in *. cbn [b64encode_nopad app].
  rewrite (a2b_loop_sextet _ _ _ _ _ _ Hs0). cbn [N.eqb].
  rewrite (a2b_loop_sextet _ _ _ _ _ _ Hs1). cbn [N.eqb Pos.eqb].
  rewrite Ho0, Hlc1.
  rewrite (a2b_loop_sextet _ _ _ _ _ _ Hs2). cbn [N.eqb Pos.eqb].
  rewrite Ho1.
  rewrite (a2b_loop_sextet _ _ _ _ _ _ Hs3). cbn [N.eqb Pos.eqb].
  rewrite Ho2. by rewrite <- !app_assoc.
Qed.

Lemma a2b_loop_last_one b0 lc p out :
  (b0 < 256)%N →
  a2b_loop (b64encode_nopad [b0] ++ [61; 61]%N) 0 lc p out = Ok (out ++ [b0]).
Proof.
  intros H0.
  destruct (sextet_first_pair b0 0 H0 eq_refl) as (Hs0 & Hs1 & Ho0 & _).
  cbv zeta in *. change (N.shiftr 0 4) with 0%N in *.
  rewrite N.lor_0_r in Hs1, Ho0. cbn [b64encode_nopad app].
  rewrite (a2b_loop_sextet _ _ _ _ _ _ Hs0). cbn [N.eqb].
  rewrite (a2b_loop_sextet _ _ _ _ _ _ Hs1). cbn [N.eqb Pos.eqb].
  by rewrite Ho0.
Qed.

Lemma a2b_loop_last_two b0 b1 lc p out :
  (b0 < 256)%N → (b1 < 256)%N →
  a2b_loop (b64encode_nopad [b0; b1] ++ [61]%N) 0 lc p out
  = Ok (out ++ [b0; b1]).
Proof.
  intros H0 H1.
  destruct (sextet_first_pair b0 b1 H0 H1) as (Hs0 & Hs1 & Ho0 & Hlc1).
  destruct (sextet_second_pair b1 0 H1 eq_refl) as (Hs2 & _ & Ho1 & _).
  cbv zeta in *. change (N.shiftr 0 6) with 0%N in *.
  rewrite N.lor_0_r in Hs2, Ho1. cbn [b64encode_nopad app].
  rewrite (a2b_loop_sextet _ _ _ _ _ _ Hs0). cbn [N.eqb].
  rewrite (a2b_loop_sextet _ _ _ _ _ _ Hs1). cbn [N.eqb Pos.eqb].
  rewrite Ho0, Hlc1.
  rewrite (a2b_loop_sextet _ _ _ _ _ _ Hs2). cbn [N.eqb Pos.eqb].
  rewrite Ho1. cbn. by rewrite <- !app_assoc.
Qed.

(** Whole blocks in front of a segment do not change its padding. *)
Lemma part_for_decode_block block part :
  length block = 4%nat →
  part_for_decode (block ++ part) = block ++ part_for_decode part.
Proof.
  intros Hb. rewrite !part_for_decode_eq.
  replace (Z.of_nat (length (block ++ part)))
    with (Z.of_nat (length part) + 1 * 4) by (rewrite length_app; lia).
  rewrite Z.mod_add by done.
  case_decide; [done|]. by rewrite <- app_assoc.
Qed.

Lemma list_ind3 {A} (P : list A → Prop) :
  P [] → (∀ a, P [a]) → (∀ a b, P [a; b]) →
  (∀ a b c l, P l → P (a :: b :: c :: l)) →
  ∀ l, P l.
Proof.
  intros H0 H1 H2 H3.
  assert (∀ l, P l ∧ (∀ a, P (a :: l)) ∧ (∀ a b, P (a :: b :: l))) as H.
  { induction l as [|x l (IHa & IHb & IHc)]; [by auto|].
    split; [apply IHb|]. split; [intros; apply IHc|].
    intros a b. apply H3, IHa. }
  intros l. apply H.
Qed.

Lemma a2b_loop_encoded bs :
  Forall (λ b, (b < 256)%N) bs →
  ∀ lc p out,
    a2b_loop (part_for_decode (b64encode_nopad bs)) 0 lc p out
    = Ok (out ++ bs).
Proof.
  induction bs as [|b0|b0 b1|b0 b1 b2 bs IH] using list_ind3;
    intros Hbytes lc p out.
  - by rewrite app_nil_r.
  - apply Forall_cons in Hbytes as [H0 _].
    by apply (a2b_loop_last_one b0).
  - apply Forall_cons in Hbytes as [H0 Hbytes].
    apply Forall_cons in Hbytes as [H1 _].
    by apply (a2b_loop_last_two b0 b1).
  - apply Forall_cons in Hbytes as [H0 Hbytes].
    apply Forall_cons in Hbytes as [H1 Hbytes].
    apply Forall_cons in Hbytes as [H2 Hbytes].
    change (b64encode_nopad (b0 :: b1 :: b2 :: bs))
      with (b64encode_nopad [b0; b1; b2] ++ b64encode_nopad bs).
    rewrite part_for_decode_block by done.
    rewrite a2b_loop_group by done. rewrite IH by done.
    by rewrite <- app_assoc.
Qed.

Lemma b64encode_nopad_alphabet bs :
  Forall (λ b, (b < 256)%N) bs →
  Forall (λ c, in_alphabet c = true) (b64encode_nopad bs).
Proof.
  induction bs as [|b0|b0 b1|b0 b1 b2 bs IH] using list_ind3; intros Hbytes.
  - constructor.
  - apply Forall_cons in Hbytes as [H0 _].
    destruct (sextet_first_pair b0 0 H0 eq_refl) as (Hs0 & Hs1 & _).
    cbv zeta in Hs1. change (N.shiftr 0 4) with 0%N in Hs1.
    rewrite N.lor_0_r in Hs1.
    repeat constructor; by apply table_round_trip.
  - apply Forall_cons in Hbytes as [H0 Hbytes].
    apply Forall_cons in Hbytes as [H1 _].
    destruct (sextet_first_pair b0 b1 H0 H1) as (Hs0 & Hs1 & _).
    destruct (sextet_second_pair b1 0 H1 eq_refl) as (Hs2 & _).
    cbv zeta in Hs2. change (N.shiftr 0 6) with 0%N in Hs2.
    rewrite N.lor_0_r in Hs2.
    repeat constructor; by apply table_round_trip.
  - apply Forall_cons in Hbytes as [H0 Hbytes].
    apply Forall_cons in Hbytes as [H1 Hbytes].
    apply Forall_cons in Hbytes as [H2 Hbytes].
    destruct (sextet_first_pair b0 b1 H0 H1) as (Hs0 & Hs1 & _).
    destruct (sextet_second_pair b1 b2 H1 H2) as (Hs2 & Hs3 & _).
    cbn [b64encode_nopad].
    repeat (constructor; [by apply table_round_trip|]). by apply IH.
Qed.

(** A padded segment over the alphabet passes the ASCII check. *)
Lemma part_for_decode_ascii part :
  Forall (λ c, in_alphabet c = true) part →
  forallb (λ c, (c <? 128)%N) (part_for_decode part) = true.
Proof.
  intros Hall.
  assert (forallb (λ c, (c <? 128)%N) part = true) as Hascii.
  { apply forallb_forall. intros c Hc. apply in_alphabet_ascii.
    rewrite Forall_forall in Hall. apply Hall. by apply list_elem_of_In. }
  rewrite part_for_decode_eq. case_decide; [done|].
  rewrite forallb_app, Hascii. apply forallb_forall.
  intros c Hc. apply list_elem_of_In, elem_of_replicate in Hc as [-> _].
  done.
Qed.

Lemma bytes_check bs :
  forallb (λ b, (b <? 256)%N) bs = true → Forall (λ b, (b < 256)%N) bs.
Proof.
  intros H. apply Forall_forall. intros b Hb. apply list_elem_of_In in Hb.
  eapply forallb_forall in H; eauto. by apply N.ltb_lt.
Qed.

(** X1.  The base64 text of any byte string, with its trailing padding
    left off, is padded back by the padding step to a text that
    [b64decode] decodes to the byte string itself. *)
Theorem padding_restores_encoding (bs : list N) :
  Forall (λ b, (b < 256)%N) bs →
  Base64.b64decode (part_for_decode (b64encode_nopad bs)) = Ok bs.
Proof.
  intros Hbytes. unfold Base64.b64decode, a2b_base64.
  rewrite part_for_decode_ascii by by apply b64encode_nopad_alphabet.
  by rewrite a2b_loop_encoded.
Qed.

Lemma padding_restores_encoding_witness :
  b64encode_nopad (str "hello") = str "aGVsbG8"
  ∧ Base64.b64decode (part_for_decode (b64encode_nopad (str "hello")))
    = Ok (str "hello").
Proof.
  split; [reflexivity|].
  apply padding_restores_encoding. by apply bytes_check.
Defined.

End Base64RoundTrip.

(** ** More on the token diagnostic logger *)

Module LoggerExtras.
Import PyFacts Base64 Base64Facts IdentityClient IdentityFacts.

(** X2.  Padding a padded segment changes nothing. *)
Theorem part_for_decode_idempotent (part : pystr) :
  part_for_decode (part_for_decode part) = part_for_decode part.
Proof.
  rewrite (part_for_decode_eq (part_for_decode part)).
  by rewrite decide_True by apply part_for_decode_length.
Qed.

Lemma forallb_exists_false {A} (f : A → bool) (l : list A) x :
  x ∈ l → f x = false → forallb f l = false.
Proof.
  intros Hx Hf. destruct (forallb f l) eqn:Hall; [|done].
  eapply forallb_forall in Hall; [|by apply list_elem_of_In].
  congruence.
Qed.

Lemma part_for_decode_prefix part :
  ∃ pad, part_for_decode part = part ++ pad.
Proof.
  rewrite part_for_decode_eq. case_decide; [|by eexists].
  exists []. by rewrite app_nil_r.
Qed.

(** A segment over the alphabet whose length is one more than a
    multiple of 4 is rejected by the decoder. *)
Lemma padded_undecodable part :
  forallb in_alphabet part = true →
  Z.of_nat (length part) mod 4 = 1 →
  ∃ e, Base64.b64decode (part_for_decode part) = Raise e
       ∧ exn_cls e = BinasciiError.
Proof.
  intros Halpha Hr.
  assert (Forall (λ c, in_alphabet c = true) part) as Hall.
  { apply Forall_forall. intros c Hc. apply list_elem_of_In in Hc.
    eapply forallb_forall in Halpha; eauto. }
  unfold Base64.b64decode, a2b_base64.
  rewrite Base64RoundTrip.part_for_decode_ascii by done.
  rewrite part_for_decode_eq. rewrite decide_False by lia. rewrite Hr.
  destruct (a2b_loop_alphabet (replicate (Z.to_nat (4 - 1)) 61%N) part Hall
              0%N 0%N [] eq_refl) as (lc' & out' & Heq).
  rewrite Heq. pose proof (quad_pos_of_length part) as Hq.
  replace ((0 + N.of_nat (length part)) mod 4)%N with 1%N by lia.
  by eexists.
Qed.

Section Logger.
Context `{!Collaborators}.

(** X3.  For a segment over the base64 alphabet, the padded segment
    decodes exactly when the segment's length is not one more than a
    multiple of 4; in the other case the turn of the loop records an
    error line carrying a [binascii.Error]. *)
Theorem alphabet_segment_decodes_iff (part : pystr) :
  forallb in_alphabet part = true →
  ((∃ decoded, Base64.b64decode (part_for_decode part) = Ok decoded)
   ↔ Z.of_nat (length part) mod 4 ≠ 1)
  ∧ (Z.of_nat (length part) mod 4 = 1 →
     ∃ e, exn_cls e = BinasciiError
          ∧ ∀ i, segment_log_line i part
                 = logger_error (decode_failure_message i e)).
Proof.
  intros Halpha. split; [split|].
  - intros [decoded Hd] Hr.
    destruct (padded_undecodable part Halpha Hr) as (e & He & _).
    congruence.
  - by apply padded_decodable.
  - intros Hr. destruct (padded_undecodable part Halpha Hr) as (e & He & Hc).
    exists e. split; [done|]. intros i.
    unfold segment_log_line, decode_segment. by rewrite He.
Qed.

(** X4.  A segment holding a character outside ASCII is never handed
    to the decoder proper: [b64decode] raises [ValueError] and the turn
    of the loop records an error line with that message. *)
Theorem non_ascii_segment_is_rejected (part : pystr) (c : N) (i : Z) :
  c ∈ part → (128 ≤ c)%N →
  decode_segment part
  = Raise (mk_exn ValueError
             (str "string argument should contain only ASCII characters"))
  ∧ segment_log_line i part
    = logger_error
        ([9; 10060; 32]%N ++ str "Failed to decode token part "
         ++ str_of_int i
         ++ str ": string argument should contain only ASCII characters").
Proof.
  intros Hc Hge.
  assert (decode_segment part
          = Raise (mk_exn ValueError
                     (str "string argument should contain only ASCII characters")))
    as Hd.
  { unfold decode_segment, Base64.b64decode.
    destruct (part_for_decode_prefix part) as [pad ->].
    rewrite forallb_app.
    rewrite (forallb_exists_false _ part c Hc); [done|].
    by apply N.ltb_ge. }
  split; [done|]. unfold segment_log_line. by rewrite Hd.
Qed.

(** X5.  What the logger does is independent of the signature: two
    tokens with the same header and payload segments give the same run,
    whatever follows the second ['.']. *)
Theorem logger_ignores_signature (header payload sig1 sig2 : pystr)
  (tr : list call) :
  Forall (λ c, c ≠ 46%N) header →
  Forall (λ c, c ≠ 46%N) payload →
  log_jwt_token_details (header ++ 46%N :: payload ++ 46%N :: sig1) tr
  = log_jwt_token_details (header ++ 46%N :: payload ++ 46%N :: sig2) tr.
Proof.
  intros Hh Hp. unfold log_jwt_token_details. cbv zeta.
  by rewrite !(split_app_sep _ _ _ Hh), !(split_app_sep _ _ _ Hp).
Qed.

Lemma log_lines_segments (xs : list (Z * pystr)) :
  log_lines (concat ((λ ip, [b64decode_call (part_for_decode ip.2);
                             segment_log_line ip.1 ip.2]) <$> xs))
  = (λ ip, segment_log_line ip.1 ip.2) <$> xs.
Proof.
  induction xs as [|[i part] xs IH]; [done|].
  cbn [fmap list_fmap concat fst snd]. rewrite log_lines_app, IH.
  assert (log_lines [b64decode_call (part_for_decode part);
                     segment_log_line i part]
          = [segment_log_line i part]) as ->; [|done].
  unfold segment_log_line. by destruct (decode_segment part).
Qed.

(** X6.  The logger records exactly one log line for each segment it
    examines, in the order of the segments, and never issues a
    request. *)
Theorem logger_one_line_per_segment (access_token : pystr)
  (tr : list call) :
  codecs_raise_Exception →
  log_lines (log_jwt_token_details access_token tr).2
  = log_lines tr
    ++ ((λ ip, segment_log_line ip.1 ip.2)
          <$> enumerate (take 2 (split 46 access_token)))
  ∧ posts (log_jwt_token_details access_token tr).2 = posts tr.
Proof.
  intros Hlib. rewrite log_jwt_token_details_run by done. cbn [snd].
  split.
  - by rewrite log_lines_app, log_lines_segments.
  - rewrite posts_app, posts_segments. apply app_nil_r.
Qed.

(** X7.  With a non-empty token the call records, in this order: the
    line announcing that the token was loaded, what the logger records
    for the token, and the request; the announcement is made before the
    token is looked at. *)
Theorem nonempty_token_trace (g : globals) (desc : pystr) (c : N)
  (s : pystr) (tr : list call) :
  codecs_raise_Exception →
  ∃ headers data,
    (_cost_estimator_with_auth g desc (Some (c :: s)) tr).2
    = tr ++ logger_info token_loaded_message
         :: (log_jwt_token_details (c :: s) []).2
         ++ [requests_post (RUNTIME_URL g) headers data].
Proof.
  intros Hlib.
  assert (log_access_token (Some (c :: s)) tr
          = (Ok tt, tr ++ logger_info token_loaded_message
                       :: (log_jwt_token_details (c :: s) []).2)) as Hlog.
  { unfold log_access_token. cbn [truthy]. unfold bind, emit.
    rewrite !log_jwt_token_details_run by done. cbn [snd app].
    by rewrite <- app_assoc. }
  rewrite (cost_estimator_after_logging g desc _ _ _ Hlog). cbn [snd].
  eexists _, _. reflexivity.
Qed.

End Logger.

Lemma alphabet_segment_decodes_iff_witness :
  ∃ e, exn_cls e = BinasciiError
       ∧ @segment_log_line (fixed_endpoint 200) 0 (str "aGVsb")
         = logger_error (decode_failure_message 0 e).
Proof.
  destruct (proj2 (@alphabet_segment_decodes_iff (fixed_endpoint 200)
                     (str "aGVsb") eq_refl) eq_refl) as (e & He & Hline).
  exists e. split; [exact He | exact (Hline 0)].
Defined.

Lemma non_ascii_segment_is_rejected_witness :
  @decode_segment (fixed_endpoint 200) [97; 233; 98]%N
  = Raise (mk_exn ValueError
             (str "string argument should contain only ASCII characters")).
Proof.
  refine (proj1 (@non_ascii_segment_is_rejected (fixed_endpoint 200)
                   [97; 233; 98]%N 233%N 0 _ _)).
  - apply list_elem_of_In. simpl. auto.
  - lia.
Defined.

Lemma logger_ignores_signature_witness :
  @log_jwt_token_details (fixed_endpoint 200) (str "aGVsbG8.bnVsbA.sig") []
  = @log_jwt_token_details (fixed_endpoint 200)
      (str "aGVsbG8.bnVsbA.other.parts") [].
Proof.
  apply (@logger_ignores_signature (fixed_endpoint 200) (str "aGVsbG8")
           (str "bnVsbA") (str "sig") (str "other.parts") []);
    by apply no_sep_check.
Defined.

Lemma logger_one_line_per_segment_witness :
  log_lines (@log_jwt_token_details (fixed_endpoint 200) (str "ab") []).2
  = [logger_error
       ([9; 10060; 32]%N
        ++ str "Failed to decode token part 0: Expecting value")].
Proof.
  exact (proj1 (@logger_one_line_per_segment (fixed_endpoint 200)
                  (str "ab") [] (fixed_endpoint_codecs 200))).
Defined.

Lemma nonempty_token_trace_witness :
  ∃ headers data,
    (@_cost_estimator_with_auth (fixed_endpoint 200) initial_globals
       (str "two EC2 instances") (Some (str "bnVsbA")) []).2
    = [logger_info token_loaded_message;
       b64decode_call (str "bnVsbA==");
       logger_info (9%N :: str "Token part 0: None");
       requests_post (JStr []) headers data].
Proof.
  destruct (@nonempty_token_trace (fixed_endpoint 200) initial_globals
              (str "two EC2 instances") 98%N (str "nVsbA") []
              (fixed_endpoint_codecs 200)) as (headers & data & Htr).
  exists headers, data. exact Htr.
Defined.

End LoggerExtras.

(** ** More on the configuration loader *)

Module LoaderExtras.
Import IdentityClient IdentityFacts.

Lemma getitem_insert_ne (d : gmap pystr json) k v key :
  k ≠ key → getitem (JObj (<[k := v]> d)) key = getitem (JObj d) key.
Proof. intros Hne. simpl. by rewrite lookup_insert_ne. Qed.

(** X8.  Keys of the config other than the three sections are
    ignored: adding one changes neither the values loaded nor the
    failure. *)
Theorem startup_ignores_other_keys (d : gmap pystr json) (k : pystr)
  (v : json) :
  k ≠ str "provider" → k ≠ str "cognito" → k ≠ str "runtime" →
  startup (JObj (<[k := v]> d)) = startup (JObj d).
Proof.
  intros Hp Hc Hr. unfold startup, load_config, bind, lift.
  by rewrite !getitem_insert_ne.
Qed.

Lemma startup_ignores_other_keys_witness :
  startup
    (JObj (<[str "region" := JStr (str "us-east-1")]>
             (<[str "provider" := JObj {[ str "name" := JStr (str "idp") ]}]>
                (<[str "cognito"
                   := JObj {[ str "scope" := JStr (str "s/rw") ]}]>
                   {[ str "runtime"
                      := JObj {[ str "url" := JStr (str "https://rt") ]} ]}))))
  = Ok (mk_globals (JStr (str "idp")) (JStr (str "s/rw"))
          (JStr (str "https://rt"))).
Proof.
  rewrite startup_ignores_other_keys; [reflexivity|by vm_compute..].
Defined.

Lemma getitem_found config k1 k2 mid v :
  getitem config k1 = Ok mid → getitem mid k2 = Ok v →
  nested_key config k1 k2 = Some v.
Proof.
  destruct config as [| | | | | |d]; try done. simpl.
  destruct (d !! k1) as [x|]; [|done]. intros [= ->].
  destruct mid as [| | | | | |d']; try done. simpl.
  by destruct (d' !! k2) as [y|]; [intros [= ->]|].
Qed.

(** X9.  What a successful load leaves in the globals is what the
    config holds under the three nested keys. *)
Theorem startup_values_come_from_config (config : json) (g : globals) :
  startup config = Ok g →
  nested_key config (str "provider") (str "name") = Some (OAUTH_PROVIDER g)
  ∧ nested_key config (str "cognito") (str "scope") = Some (OAUTH_SCOPE g)
  ∧ nested_key config (str "runtime") (str "url") = Some (RUNTIME_URL g).
Proof.
  unfold startup, load_config, bind, lift.
  destruct (getitem config (str "provider")) as [provider|e] eqn:Hp1;
    [|done].
  destruct (getitem provider (str "name")) as [name|e] eqn:Hp2; [|done].
  cbn -[str].
  destruct (getitem config (str "cognito")) as [cognito|e] eqn:Hc1; [|done].
  destruct (getitem cognito (str "scope")) as [scope|e] eqn:Hc2; [|done].
  cbn -[str].
  destruct (getitem config (str "runtime")) as [runtime|e] eqn:Hr1; [|done].
  destruct (getitem runtime (str "url")) as [url|e] eqn:Hr2; [|done].
  cbn -[str]. intros [= <-]. cbn -[str].
  split; [|split]; eapply getitem_found; eassumption.
Qed.

Lemma startup_values_come_from_config_witness :
  nested_key
    (JObj (<[str "provider" := JObj {[ str "name" := JStr (str "idp") ]}]>
             (<[str "cognito" := JObj {[ str "scope" := JStr (str "s/rw") ]}]>
                {[ str "runtime"
                   := JObj {[ str "url" := JStr (str "https://rt") ]} ]})))
    (str "runtime") (str "url")
  = Some (JStr (str "https://rt")).
Proof.
  refine (proj2 (proj2 (startup_values_come_from_config _
            (mk_globals (JStr (str "idp")) (JStr (str "s/rw"))
               (JStr (str "https://rt"))) _))).
  by vm_compute.
Defined.




End LoaderExtras.

(** ** More on the two invokers *)

Module InvokerExtras.

Section Batch.
Import BatchInvoker.
Context {agent result : Type} `{!CostEstimator agent result}.

(** X11.  A payload without ["prompt"] is not rejected: the batch
    estimation is called with [None]. *)
Theorem invoke_missing_prompt (payload : gmap pystr json) (a : agent)
  (tr : list call) :
  payload !! str "prompt" = None →
  AWSCostEstimatorAgent tr = Ok a →
  invoke payload tr
  = (estimate_costs a (tr ++ [agent_init]) JNull,
     tr ++ [agent_init; estimate_costs_call JNull]).
Proof.
  intros Hnone Ha.
  unfold invoke, bind, new_agent, call_estimate_costs, dict_get.
  rewrite Hnone, Ha. cbn. by rewrite <- app_assoc.
Qed.

(** X12.  The invoker constructs the agent before anything else and
    calls the batch estimation at most once; when the constructor
    raises, its exception is what the invoker raises and the estimation
    is never called. *)
Theorem invoke_constructs_first (payload : gmap pystr json)
  (tr : list call) :
  (∃ rest,
     (invoke payload tr).2 = tr ++ agent_init :: rest
     ∧ (rest = []
        ∨ rest = [estimate_costs_call (dict_get payload (str "prompt"))]))
  ∧ (∀ e, AWSCostEstimatorAgent tr = Raise e →
          invoke payload tr = (Raise e, tr ++ [agent_init])).
Proof.
  unfold invoke, bind, new_agent, call_estimate_costs.
  destruct (AWSCostEstimatorAgent tr) as [a|e0]; cbn.
  - split; [|done]. eexists. split; [by rewrite <- app_assoc|]. by right.
  - split; [|by intros e [= ->]]. exists []. split; [done|]. by left.
Qed.

End Batch.

Lemma invoke_missing_prompt_witness :
  @BatchInvoker.invoke unit json BatchInvoker.echo_agent ∅ []
  = (Ok (JArr [JNull]),
     [BatchInvoker.agent_init; BatchInvoker.estimate_costs_call JNull]).
Proof.
  apply (@invoke_missing_prompt unit json BatchInvoker.echo_agent ∅ tt []);
    reflexivity.
Defined.

Lemma invoke_constructs_first_witness :
  ∃ e, @BatchInvoker.invoke unit json BatchInvoker.broken_agent
         {[ str "prompt" := JStr (str "X") ]} []
       = (Raise e, [BatchInvoker.agent_init]).
Proof.
  eexists.
  apply (proj2 (@invoke_constructs_first unit json BatchInvoker.broken_agent
                  {[ str "prompt" := JStr (str "X") ]} [])).
  reflexivity.
Defined.

Section Streaming.
Import StreamingInvoker StreamingFacts.
Context {agent stream event : Type} `{!StreamingEstimator agent stream event}.

(** X13.  When the upstream iterator delivers some events and then
    raises, the generator delivers the same events in the same order and
    then raises the same exception. *)
Theorem invoke_forwards_failure (payload : gmap pystr json) (a : agent)
  (upstream : stream) (fuel : nat) (events : list event) (e : exn) :
  AWSCostEstimatorAgent = Ok a →
  estimate_costs_stream a (dict_get payload (str "prompt")) = Ok upstream →
  drain anext fuel upstream = (events, Failed e) →
  drain invoke_anext fuel (invoke payload) = (events, Failed e).
Proof.
  intros Ha Hs Hfail. by rewrite (drain_created _ _ _ _ Ha Hs).
Qed.

(** X14.  When the constructor or the creation of the stream raises,
    the generator raises that exception at its first resumption and
    delivers nothing. *)
Theorem invoke_creation_failure (payload : gmap pystr json) (e : exn)
  (fuel : nat) :
  AWSCostEstimatorAgent = Raise e
  ∨ (∃ a, AWSCostEstimatorAgent = Ok a
          ∧ estimate_costs_stream a (dict_get payload (str "prompt"))
            = Raise e) →
  drain invoke_anext (S fuel) (invoke payload) = ([], Failed e).
Proof.
  intros [Ha | (a & Ha & Hs)]; cbn [drain invoke invoke_anext];
    rewrite Ha; [done|]. by rewrite Hs.
Qed.

(** X15.  A payload without ["prompt"] is not rejected: the stream is
    requested for [None] and forwarded as usual. *)
Theorem invoke_stream_missing_prompt (payload : gmap pystr json) (a : agent)
  (upstream : stream) :
  payload !! str "prompt" = None →
  AWSCostEstimatorAgent = Ok a →
  estimate_costs_stream a JNull = Ok upstream →
  ∀ n, drain invoke_anext n (invoke payload) = drain anext n upstream.
Proof.
  intros Hnone Ha Hs n. apply drain_created with a; [done|].
  unfold dict_get. by rewrite Hnone.
Qed.

End Streaming.

Lemma invoke_forwards_failure_witness :
  ∃ e, StreamingInvoker.drain (@StreamingInvoker.invoke_anext unit (list (option json)) json
                StreamingInvoker.flaky_agent) 5
         (StreamingInvoker.invoke {[ str "prompt" := JStr (str "a") ]})
       = ([JStr (str "a")], StreamingInvoker.Failed e).
Proof.
  eexists.
  apply (@invoke_forwards_failure unit (list (option json)) json
           StreamingInvoker.flaky_agent {[ str "prompt" := JStr (str "a") ]}
           tt [Some (JStr (str "a")); None] 5);
    reflexivity.
Defined.

Lemma invoke_creation_failure_witness :
  ∃ e, StreamingInvoker.drain (@StreamingInvoker.invoke_anext unit (list json) json
                StreamingInvoker.unavailable_agent) 1
         (StreamingInvoker.invoke {[ str "prompt" := JStr (str "a") ]})
       = ([], StreamingInvoker.Failed e).
Proof.
  eexists.
  apply (@invoke_creation_failure unit (list json) json
           StreamingInvoker.unavailable_agent).
  left. reflexivity.
Defined.

Lemma invoke_stream_missing_prompt_witness :
  StreamingInvoker.drain (@StreamingInvoker.invoke_anext unit (list json) json
           StreamingInvoker.list_agent) 4 (StreamingInvoker.invoke ∅)
  = ([JNull; JStr (str "b"); JStr (str "c")], StreamingInvoker.Exhausted).
Proof.
  exact (@invoke_stream_missing_prompt unit (list json) json
           StreamingInvoker.list_agent ∅ tt
           [JNull; JStr (str "b"); JStr (str "c")]
           eq_refl eq_refl eq_refl 4).
Defined.

End InvokerExtras.
